(** * BuilderAppService: API objects for a "new app from source" build

    A shallow embedding of [src/services/builder-app.service.ts] and the
    properties of its object builder.

    Conventions of the embedding.
    - JavaScript values are the inductive [JsVal]; an object is the list of
      its own enumerable properties in enumeration order, an array the list
      of its elements.
    - Strings are [String.string] and stand for ASCII text: the case maps
      and the white-space class are JavaScript's restricted to ASCII, and a
      property that depends on a case map says so ([isAscii]).
    - Numbers that the program handles are integers and are carried as [Z].
      [parseInt] rounds to binary64 as JavaScript does; the decimal text of
      a number is its digits, which is what JavaScript prints up to 2^53.
      A property that needs an exact value carries the bound
      [MAX_SAFE_INTEGER]. The arithmetic of [generateSecret] on
      [Math.random()] is written out on binary64 significands.
    - Exceptions, the random source and the warning log are effects of the
      monad [M]. *)

From Stdlib Require Import ZArith List String Ascii Bool Lia DecimalString DecimalZ.
Import ListNotations.

Set Warnings "-register-all".

Local Open Scope string_scope.
Local Open Scope list_scope.
Local Open Scope Z_scope.

(* ================================================================== *)
(** ** JavaScript values *)

Module Js.

Inductive JsVal : Type :=
| JUndefined
| JNull
| JBool (b : bool)
| JNum (n : Z)
| JStr (s : string)
| JArr (elems : list JsVal)
| JObj (fields : list (string * JsVal)).

(** ToBoolean: what [||] and [if] test. *)
Definition truthy (v : JsVal) : bool :=
  match v with
  | JUndefined | JNull => false
  | JBool b => b
  | JNum n => negb (n =? 0)
  | JStr s => negb (String.eqb s "")
  | JArr _ | JObj _ => true
  end.

(** [a || b] *)
Definition or_else (a b : JsVal) : JsVal := if truthy a then a else b.

Fixpoint lookup (k : string) (fields : list (string * JsVal)) : option JsVal :=
  match fields with
  | [] => None
  | (k', v) :: rest => if String.eqb k' k then Some v else lookup k rest
  end.

Definition hasOwn (k : string) (fields : list (string * JsVal)) : bool :=
  match lookup k fields with Some _ => true | None => false end.

(** [k in Object(o)] for a name [k] that no built-in prototype defines: an
    own member of an object. *)
Definition hasMember (o : JsVal) (k : string) : bool :=
  match o with
  | JObj fields => hasOwn k fields
  | _ => false
  end.

(** [o[k]] for a property name [k] that no built-in prototype defines: the
    own property of an object, [undefined] on anything else. *)
Definition prop (o : JsVal) (k : string) : JsVal :=
  match o with
  | JObj fields => match lookup k fields with Some v => v | None => JUndefined end
  | _ => JUndefined
  end.

(** [a[i]] on an array. *)
Definition elem (a : JsVal) (i : nat) : JsVal :=
  match a with
  | JArr elems => nth i elems JUndefined
  | _ => JUndefined
  end.

(** [o.k1.k2...kn] read through [prop]. *)
Definition at_path (o : JsVal) (path : list string) : JsVal :=
  fold_left prop path o.

(** [o[k] = v]: an existing property keeps its place, a new one is added
    last. *)
Fixpoint setField (k : string) (v : JsVal) (fields : list (string * JsVal))
  : list (string * JsVal) :=
  match fields with
  | [] => [(k, v)]
  | (k', v') :: rest =>
      if String.eqb k' k then (k', v) :: rest else (k', v') :: setField k v rest
  end.

(** [o.k1...kn.k = v] where every [o.k1...ki] is an object. *)
Fixpoint setAt (path : list string) (k : string) (v : JsVal) (o : JsVal) : JsVal :=
  match o with
  | JObj fields =>
      match path with
      | [] => JObj (setField k v fields)
      | p :: path' => JObj (setField p (setAt path' k v (prop o p)) fields)
      end
  | _ => o
  end.

(* ------------------------------------------------------------------ *)
(** *** Strings *)

Definition code (c : ascii) : Z := Z.of_N (N_of_ascii c).

Definition mapString (f : ascii -> ascii) : string -> string :=
  fix go (s : string) : string :=
    match s with
    | EmptyString => EmptyString
    | String c s' => String (f c) (go s')
    end.

Definition upperChar (c : ascii) : ascii :=
  if (97 <=? code c) && (code c <=? 122)
  then ascii_of_N (N_of_ascii c - 32) else c.

Definition lowerChar (c : ascii) : ascii :=
  if (65 <=? code c) && (code c <=? 90)
  then ascii_of_N (N_of_ascii c + 32) else c.

(** [s.toUpperCase()] and [s.toLowerCase()] on ASCII text; a character
    outside ASCII is left as it is, which is not what JavaScript does with
    every such character. *)
Definition toUpperCase : string -> string := mapString upperChar.
Definition toLowerCase : string -> string := mapString lowerChar.

Definition isAscii (s : string) : bool :=
  (fix go (s : string) : bool :=
     match s with
     | EmptyString => true
     | String c s' => (code c <? 128) && go s'
     end) s.

(** [s.split(sep)] for a one-character separator: never empty, the empty
    string gives one empty segment. *)
Fixpoint split (sep : ascii) (s : string) : list string :=
  match s with
  | EmptyString => [EmptyString]
  | String c s' =>
      if Ascii.eqb c sep then EmptyString :: split sep s'
      else match split sep s' with
           | [] => [String c EmptyString]
           | seg :: segs => String c seg :: segs
           end
  end.

(** [s.substring(n)] *)
Fixpoint substringFrom (n : nat) (s : string) : string :=
  match n, s with
  | O, _ => s
  | S n', String _ s' => substringFrom n' s'
  | S _, EmptyString => EmptyString
  end.

(** [a / 2^e] rounded to the nearest integer, ties to even. *)
Definition roundNearestEven (a e : Z) : Z :=
  let q := a / 2 ^ e in
  let r := a mod 2 ^ e in
  let half := 2 ^ (e - 1) in
  if r <? half then q
  else if half <? r then q + 1
  else if Z.even q then q else q + 1.

Definition MAX_SAFE_INTEGER : Z := 9007199254740991.

(** The binary64 value nearest to the integer [n >= 0], ties to even: [n]
    itself up to 2^53, beyond that [n] rounded to 53 significant bits. *)
Definition binary64 (n : Z) : Z :=
  let excess := Z.log2 n - 52 in
  if excess <=? 0 then n else roundNearestEven n excess * 2 ^ excess.

(** The result of [parseInt]. *)
Inductive Number : Type :=
| NaN
| Int (n : Z).

Definition isWhiteSpace (c : ascii) : bool :=
  ((9 <=? code c) && (code c <=? 13)) || (code c =? 32).

Definition isDigit (c : ascii) : bool := (48 <=? code c) && (code c <=? 57).

Definition digitValue (c : ascii) : Z := code c - 48.

Fixpoint trimStart (s : string) : string :=
  match s with
  | String c s' => if isWhiteSpace c then trimStart s' else s
  | EmptyString => EmptyString
  end.

(** The longest prefix of decimal digits. *)
Fixpoint leadingDigits (s : string) : list ascii :=
  match s with
  | String c s' => if isDigit c then c :: leadingDigits s' else []
  | EmptyString => []
  end.

Definition digitsValue (ds : list ascii) : Z :=
  fold_left (fun acc d => 10 * acc + digitValue d) ds 0.

(** [parseInt(s, 10)]: leading white space is dropped, one sign is read,
    then the longest run of decimal digits; no digit gives [NaN]. The
    number is the binary64 nearest to the digits' value, so it is that
    value up to 2^53 and a neighbour of it beyond. Digit strings worth
    2^1024 or more, for which JavaScript gives [Infinity], are outside the
    model, and an engine may drop digits after the twentieth. *)
Definition parseInt10 (s : string) : Number :=
  let t := trimStart s in
  let '(sign, body) :=
    match t with
    | String "-"%char r => (-1, r)
    | String "+"%char r => (1, r)
    | _ => (1, t)
    end in
  match leadingDigits body with
  | [] => NaN
  | ds => Int (sign * binary64 (digitsValue ds))
  end.

(** [String(n)] for an integer [n]: a sign and all the decimal digits.
    JavaScript prints exactly this up to 2^53 in absolute value; beyond,
    it prints the shortest digits that round to the number, and from
    10^21 on an exponent. *)
Definition numberToString (n : Z) : string :=
  NilZero.string_of_int (Z.to_int n).

Definition hexDigit (d : Z) : ascii :=
  if d <? 10 then ascii_of_N (Z.to_N (48 + d)) else ascii_of_N (Z.to_N (87 + d)).

Fixpoint hexDigits (fuel : nat) (n : Z) (acc : string) : string :=
  match fuel with
  | O => acc
  | S fuel' =>
      let acc' := String (hexDigit (n mod 16)) acc in
      if n / 16 =? 0 then acc' else hexDigits fuel' (n / 16) acc'
  end.

(** [n.toString(16)] for an integer [n >= 0]. *)
Definition toString16 (n : Z) : string :=
  hexDigits (S (Z.to_nat (Z.log2 n))) n EmptyString.

Definition isHexChar (c : ascii) : bool :=
  isDigit c || ((97 <=? code c) && (code c <=? 102)).

Fixpoint allChars (p : ascii -> bool) (s : string) : bool :=
  match s with
  | EmptyString => true
  | String c s' => p c && allChars p s'
  end.

(* ------------------------------------------------------------------ *)
(** *** Binary64 arithmetic used by [generateSecret] *)

(** A binary64 value in [0,1) is [k * 2^-1074] for some [0 <= k < 2^1074].
    [onePlus k] is the binary64 sum [1 + k * 2^-1074], returned as the
    integer [m] with value [m * 2^-52]: the exact sum lies in [1,2), where
    binary64 values are the multiples of [2^-52]. *)
Definition onePlus (k : Z) : Z := roundNearestEven (2 ^ 1074 + k) 1022.

(** [Math.floor(x * 0x10000)] for [x = m * 2^-52]; the product is exact. *)
Definition floorTimes0x10000 (m : Z) : Z := (m * 65536) / 2 ^ 52.

End Js.
Export Js.

(* ================================================================== *)
(** ** Effects: exceptions, the random source, the warning log *)

Module Eff.

Inductive Error : Type :=
| TypeError.

Inductive Outcome (A : Type) : Type :=
| Normal (a : A)
| Throw (e : Error).
Arguments Normal {A} a.
Arguments Throw {A} e.

(** What a run can observe and change outside its own values: the stream
    behind [Math.random()], how much of it has been consumed, and the
    messages passed to the logger so far. *)
Record World : Type := mkWorld {
  entropy : nat -> Z;
  drawn : nat;
  warnings : list string
}.

Definition M (A : Type) : Type := World -> Outcome A * World.

Definition ret {A} (a : A) : M A := fun w => (Normal a, w).

Definition bind {A B} (m : M A) (f : A -> M B) : M B :=
  fun w =>
    match m w with
    | (Normal a, w') => f a w'
    | (Throw e, w') => (Throw e, w')
    end.

Definition throw {A} (e : Error) : M A := fun w => (Throw e, w).

(** [Math.random()]: a binary64 value in [0,1), given by the integer [k]
    with value [k * 2^-1074]. *)
Definition Math_random : M Z :=
  fun w =>
    (Normal (entropy w (drawn w) mod 2 ^ 1074),
     mkWorld (entropy w) (S (drawn w)) (warnings w)).

Definition logWarning (msg : string) : M unit :=
  fun w => (Normal tt, mkWorld (entropy w) (drawn w) (warnings w ++ [msg])).

(** The value of [this] inside a function body, as far as the body's use
    of [this.Logger] can tell: [undefined], or an object that has or lacks
    a [Logger] member. *)
Inductive Receiver : Type :=
| ThisUndefined
| ThisObject (hasLogger : bool).

End Eff.
Export Eff.

Declare Scope js_scope.
Delimit Scope js_scope with js.
Notation "x <- m ;; k" := (bind m (fun x => k))
  (at level 61, m at next level, right associativity) : js_scope.
Local Open Scope js_scope.

(* ================================================================== *)
(** ** The lodash functions the service calls *)

Module Lodash.

(** Walk of a property path; a missing link gives [undefined]. *)
Fixpoint baseGet (object : JsVal) (path : list string) : JsVal :=
  match path with
  | [] => object
  | k :: rest =>
      match object with
      | JUndefined | JNull => JUndefined
      | _ => baseGet (prop object k) rest
      end
  end.

(** The path as a list of names: the whole string when the object has a
    member of that name, otherwise the string cut at the dots (no
    brackets occur in the paths of the service). *)
Definition castPath (path : string) (object : JsVal) : list string :=
  if hasMember object path then [path] else split "."%char path.

(** [_.get(object, path, defaultValue)] for a dotted path: the path is
    cast and walked; the default replaces an [undefined] result only. *)
Definition get (object : JsVal) (path : string) (defaultValue : JsVal) : JsVal :=
  let result :=
    match object with
    | JUndefined | JNull => JUndefined
    | _ => baseGet object (castPath path object)
    end in
  match result with
  | JUndefined => defaultValue
  | _ => result
  end.

(** [_.head(array)] *)
Definition head {A} (array : list A) : option A :=
  match array with
  | [] => None
  | x :: _ => Some x
  end.

(** The second argument lodash passes to an iteratee: a property name, or
    an index when the collection is iterated like an array. *)
Inductive Key : Type :=
| KeyName (k : string)
| KeyIndex (i : nat).

(** Collections with a valid [length] are iterated like arrays. *)
Definition arrayLikeLength (collection : JsVal) : option nat :=
  match collection with
  | JStr s => Some (String.length s)
  | JArr elems => Some (List.length elems)
  | JObj fields =>
      match lookup "length" fields with
      | Some (JNum n) =>
          if (0 <=? n) && (n <=? Js.MAX_SAFE_INTEGER) then Some (Z.to_nat n) else None
      | _ => None
      end
  | _ => None
  end.

Definition indexed (collection : JsVal) (i : nat) : JsVal :=
  match collection with
  | JStr s => match String.get i s with
              | Some c => JStr (String c EmptyString)
              | None => JUndefined
              end
  | JArr _ => elem collection i
  | _ => prop collection (numberToString (Z.of_nat i))
  end.

(** The (value, key) pairs [_.each] visits, in order: nothing for [null],
    [undefined] and primitives without a length, the indices for an
    array-like collection, the own members for any other object. *)
Definition entries (collection : JsVal) : list (JsVal * Key) :=
  match arrayLikeLength collection with
  | Some n => map (fun i => (indexed collection i, KeyIndex i)) (seq 0 n)
  | None =>
      match collection with
      | JObj fields => map (fun kv => (snd kv, KeyName (fst kv))) fields
      | _ => []
      end
  end.

(** [_.each(collection, iteratee)] with an iteratee that updates the local
    state [S] of the enclosing function and never returns [false]. *)
Fixpoint eachLoop {S} (iteratee : JsVal -> Key -> S -> M S)
         (visits : list (JsVal * Key)) (s : S) : M S :=
  match visits with
  | [] => ret s
  | (value, key) :: rest =>
      s' <- iteratee value key s ;;
      eachLoop iteratee rest s'
  end.

Definition each {S} (collection : JsVal) (iteratee : JsVal -> Key -> S -> M S)
  : S -> M S :=
  eachLoop iteratee (entries collection).

(** [_.assignWith(object, source)] without a customizer: the source's
    properties are assigned onto [object]. *)
Definition assignWith (object source : list (string * JsVal))
  : list (string * JsVal) :=
  fold_left (fun acc kv => setField (fst kv) (snd kv) acc) source object.

End Lodash.

(* ================================================================== *)
(** ** The service *)

Module BuilderAppService.

(** [imageStreamTag.metadata]: the two members [makeBuildConfig] reads. *)
Record ObjectMeta : Type := mkObjectMeta {
  meta_name : JsVal;
  meta_namespace : JsVal
}.

(** [config.imageStreamTag]: an object with a [metadata] object; [image]
    is whatever the image-metadata provider delivered, [JUndefined] when
    the member is missing. A tag without [metadata], on which
    [makeBuildConfig] throws at the read of [metadata.name], is not a
    value of this type: what follows is about configs that have it. *)
Record ImageStreamTag : Type := mkImageStreamTag {
  metadata : ObjectMeta;
  image : JsVal
}.

(** [IBuilderAppConfig]; [None] is a member that is missing. *)
Record IBuilderAppConfig : Type := mkConfig {
  name : string;
  repository : string;
  gitRef : option string;
  contextDir : option string;
  imageStreamTag : ImageStreamTag
}.

Definition jsOpt (s : option string) : JsVal :=
  match s with
  | Some s => JStr s
  | None => JUndefined
  end.

(** An element of the array built by [parsePortsFromSpec]. *)
Record Port : Type := mkPort {
  containerPort : Z;
  protocol : string
}.

Definition jsPort (p : Port) : JsVal :=
  JObj [("containerPort", JNum (containerPort p)); ("protocol", JStr (protocol p))].

(** ToString of an array element that may be missing. *)
Definition toStr (x : option string) : string :=
  match x with
  | Some s => s
  | None => "undefined"
  end.

(** [this.Logger.warn(msg)]: reading [Logger] off [undefined] throws, and
    so does reading [warn] off a [Logger] that is [undefined]. *)
Definition this_Logger_warn (this : Receiver) (msg : string) : M unit :=
  match this with
  | ThisUndefined => throw TypeError
  | ThisObject false => throw TypeError
  | ThisObject true => logWarning msg
  end.

(** The iteratee passed to [_.each]; [ports] is the array of the enclosing
    function. A key that is an index has no [split] method. The match on
    the parsed number is the test [isNaN(containerPort)]. *)
Definition portIteratee (this : Receiver) (value : JsVal) (key : Lodash.Key)
           (ports : list Port) : M (list Port) :=
  match key with
  | Lodash.KeyIndex _ => throw TypeError
  | Lodash.KeyName key =>
      let parts := split "/"%char key in
      let parts := if (List.length parts =? 1)%nat then parts ++ ["tcp"] else parts in
      let part0 := toStr (nth_error parts 0) in
      match parseInt10 part0 with
      | NaN =>
          _ <- this_Logger_warn this
                 ("Container port " ++ part0 ++ " is not a number")%string ;;
          ret ports
      | Int n =>
          match nth_error parts 1 with
          | Some part1 => ret (ports ++ [mkPort n (toUpperCase part1)])
          | None => throw TypeError
          end
      end
  end.

Definition parsePortsFromSpec_bound (this : Receiver) (portSpec : JsVal)
  : M (list Port) :=
  Lodash.each portSpec (portIteratee this) [].

(** The iteratee is a [function] expression that lodash calls without a
    receiver, in a module (strict code): its [this] is [undefined]. *)
Definition parsePortsFromSpec (portSpec : JsVal) : M (list Port) :=
  parsePortsFromSpec_bound ThisUndefined portSpec.

Definition getPorts (imageStreamTag : ImageStreamTag) : M (list Port) :=
  let image := image imageStreamTag in
  let portSpec :=
    or_else (Lodash.get image "dockerImageMetadata.Config.ExposedPorts" JUndefined)
            (Lodash.get image "dockerImageMetadata.ContainerConfig.ExposedPorts"
                        (JArr [])) in
  parsePortsFromSpec portSpec.

Definition s4 : M string :=
  r <- Math_random ;;
  ret (substringFrom 1 (toString16 (floorTimes0x10000 (onePlus r)))).

Definition generateSecret : M string :=
  a <- s4 ;;
  b <- s4 ;;
  c <- s4 ;;
  d <- s4 ;;
  ret (((a ++ b) ++ c) ++ d)%string.

Definition getAnnotations : JsVal :=
  JObj [("openshift.io/generated-by", JStr "OpenShiftWebConsole")].

Definition getLabels (config : IBuilderAppConfig) : JsVal :=
  JObj [("app", JStr (name config))].

Definition getPortName (port : Port) : string :=
  toLowerCase (numberToString (containerPort port) ++ "-" ++ protocol port)%string.

Definition makeRoute (config : IBuilderAppConfig) (port : Port) : JsVal :=
  JObj [
    ("kind", JStr "Route");
    ("apiVersion", JStr "v1");
    ("metadata", JObj [
      ("name", JStr (name config));
      ("labels", getLabels config);
      ("annotations", getAnnotations)]);
    ("spec", JObj [
      ("to", JObj [
        ("kind", JStr "Service");
        ("name", JStr (name config))]);
      ("port", JObj [
        ("targetPort", JStr (getPortName port))]);
      ("wildcardPolicy", JStr "None")])].

Definition makeService (config : IBuilderAppConfig) (port : Port) : JsVal :=
  JObj [
    ("kind", JStr "Service");
    ("apiVersion", JStr "v1");
    ("metadata", JObj [
      ("name", JStr (name config));
      ("labels", getLabels config);
      ("annotations", getAnnotations)]);
    ("spec", JObj [
      ("selector", JObj [
        ("deploymentconfig", JStr (name config))]);
      ("ports", JArr [JObj [
        ("port", JNum (containerPort port));
        ("targetPort", JNum (containerPort port));
        ("protocol", JStr (protocol port));
        ("name", JStr (getPortName port))]])])].

Definition fieldsOf (o : JsVal) : list (string * JsVal) :=
  match o with
  | JObj fields => fields
  | _ => []
  end.

Definition makeDeploymentConfig (config : IBuilderAppConfig) (ports : list Port)
  : JsVal :=
  JObj [
    ("apiVersion", JStr "v1");
    ("kind", JStr "DeploymentConfig");
    ("metadata", JObj [
      ("name", JStr (name config));
      ("labels", getLabels config);
      ("annotations", getAnnotations)]);
    ("spec", JObj [
      ("replicas", JNum 1);
      ("selector", JObj [
        ("deploymentconfig", JStr (name config))]);
      ("triggers", JArr [
        JObj [
          ("type", JStr "ImageChange");
          ("imageChangeParams", JObj [
            ("automatic", JBool true);
            ("containerNames", JArr [JStr (name config)]);
            ("from", JObj [
              ("kind", JStr "ImageStreamTag");
              ("name", JStr (name config ++ ":latest")%string)])])];
        JObj [
          ("type", JStr "ConfigChange")]]);
      ("template", JObj [
        ("metadata", JObj [
          ("labels", JObj (Lodash.assignWith
                             [("deploymentconfig", JStr (name config))]
                             (fieldsOf (getLabels config))))]);
        ("spec", JObj [
          ("containers", JArr [JObj [
            ("name", JStr (name config));
            ("image", JStr (name config ++ ":latest")%string);
            ("ports", JArr (map jsPort ports));
            ("env", JArr [])]])])])])].

Definition makeBuildConfig (config : IBuilderAppConfig) : M JsVal :=
  genericSecret <- generateSecret ;;
  githubSecret <- generateSecret ;;
  let bc := JObj [
    ("apiVersion", JStr "v1");
    ("kind", JStr "BuildConfig");
    ("metadata", JObj [
      ("name", JStr (name config));
      ("labels", getLabels config);
      ("annotations", getAnnotations)]);
    ("spec", JObj [
      ("output", JObj [
        ("to", JObj [
          ("kind", JStr "ImageStreamTag");
          ("name", JStr (name config ++ ":latest")%string)])]);
      ("source", JObj [
        ("git", JObj [
          ("ref", or_else (jsOpt (gitRef config)) (JStr "master"));
          ("uri", JStr (repository config))]);
        ("type", JStr "Git")]);
      ("strategy", JObj [
        ("type", JStr "Source");
        ("sourceStrategy", JObj [
          ("from", JObj [
            ("kind", JStr "ImageStreamTag");
            ("name", meta_name (metadata (imageStreamTag config)));
            ("namespace", meta_namespace (metadata (imageStreamTag config)))]);
          ("env", JArr [])])]);
      ("triggers", JArr [
        JObj [
          ("type", JStr "ImageChange");
          ("imageChange", JObj [])];
        JObj [
          ("type", JStr "ConfigChange")];
        JObj [
          ("generic", JObj [
            ("secret", JStr genericSecret)]);
          ("type", JStr "Generic")];
        JObj [
          ("github", JObj [
            ("secret", JStr githubSecret)]);
          ("type", JStr "GitHub")]])])] in
  if truthy (jsOpt (contextDir config))
  then ret (setAt ["spec"; "source"] "contextDir" (jsOpt (contextDir config)) bc)
  else ret bc.

Definition makeImageStream (config : IBuilderAppConfig) : JsVal :=
  JObj [
    ("apiVersion", JStr "v1");
    ("kind", JStr "ImageStream");
    ("metadata", JObj [
      ("name", JStr (name config));
      ("labels", getLabels config);
      ("annotations", getAnnotations)])].

(** [firstPort], when defined, is an object and therefore truthy. *)
Definition makeAPIObjects (config : IBuilderAppConfig) : M (list JsVal) :=
  ports <- getPorts (imageStreamTag config) ;;
  let firstPort := Lodash.head ports in
  let imageStream := makeImageStream config in
  buildConfig <- makeBuildConfig config ;;
  let objects :=
    [imageStream; buildConfig; makeDeploymentConfig config ports] in
  match firstPort with
  | Some firstPort =>
      ret (objects ++ [makeService config firstPort; makeRoute config firstPort])
  | None => ret objects
  end.

End BuilderAppService.
Import BuilderAppService.

(* ------------------------------------------------------------------ *)
(** ** Sample inputs *)

Definition quietWorld : World := mkWorld (fun _ => 0) 0 [].

Definition countingWorld : World :=
  mkWorld (fun i => (Z.of_nat i * 7919 + 12345) * 2 ^ 1058) 0 [].

(** The exposed-ports mapping of an image, [{k1: {}, k2: {}, ...}]: every
    value is the empty object, and [keys] lists the keys in the order the
    object enumerates them. *)
Definition exposedPorts (keys : list string) : JsVal :=
  JObj (map (fun k => (k, JObj [])) keys).

Definition imageWithPorts (keys : list string) : JsVal :=
  JObj [("dockerImageMetadata", JObj [
    ("Config", JObj [("ExposedPorts", exposedPorts keys)])])].

Definition nodeTag (keys : list string) : ImageStreamTag :=
  mkImageStreamTag (mkObjectMeta (JStr "node") (JStr "openshift"))
                   (imageWithPorts keys).

(** A tag whose image has the exposed ports under one member named by
    the whole dotted path, and no nested [dockerImageMetadata]. *)
Definition flatMemberTag : ImageStreamTag :=
  mkImageStreamTag (mkObjectMeta (JStr "node") (JStr "openshift"))
    (JObj [("dockerImageMetadata.Config.ExposedPorts", exposedPorts ["8080/tcp"])]).

Definition myapp (keys : list string) : IBuilderAppConfig :=
  mkConfig "myapp" "https://example.com/r.git" (Some "") (Some "") (nodeTag keys).

(* ------------------------------------------------------------------ *)
(** ** What a key of the exposed-ports mapping denotes *)

(** The segment before the first [/]. *)
Definition firstSegment (key : string) : string :=
  match split "/"%char key with
  | seg :: _ => seg
  | [] => EmptyString
  end.

(** The segment after the first [/]; [tcp] when the key has one segment. *)
Definition protocolSegment (key : string) : string :=
  match split "/"%char key with
  | _ :: proto :: _ => proto
  | _ => "tcp"
  end.

(** The port entry of a key: the first segment read as a base-10 integer
    and the protocol in upper case; none when the integer does not parse. *)
Definition portOfKey (key : string) : option Port :=
  match parseInt10 (firstSegment key) with
  | NaN => None
  | Int n => Some (mkPort n (toUpperCase (protocolSegment key)))
  end.

Definition warningFor (key : string) : string :=
  ("Container port " ++ firstSegment key ++ " is not a number")%string.

(** The entries the parser is meant to keep and the warnings it is meant
    to give: keys that do not parse are dropped, one warning each. *)
Definition keptPorts (keys : list string) : list Port :=
  flat_map (fun k => match portOfKey k with Some p => [p] | None => [] end) keys.

Definition expectedWarnings (keys : list string) : list string :=
  flat_map (fun k => match portOfKey k with Some _ => [] | None => [warningFor k] end)
           keys.

(** A segment without leading white space and without its sign. *)
Definition unsignedBody (s : string) : string :=
  match trimStart s with
  | String "-"%char r => r
  | String "+"%char r => r
  | t => t
  end.

Definition startsWithDigit (s : string) : bool :=
  match s with
  | String c _ => isDigit c
  | EmptyString => false
  end.

Definition decimalValue (digits : string) : Z :=
  digitsValue (list_ascii_of_string digits).

(* ------------------------------------------------------------------ *)
(** ** Vocabulary of the properties *)

Definition addWarnings (msgs : list string) (w : World) : World :=
  mkWorld (entropy w) (drawn w) (warnings w ++ msgs).

Definition advance (n : nat) (w : World) : World :=
  mkWorld (entropy w) (n + drawn w) (warnings w).

(** The [i]-th value [Math.random()] gives from [w] on. *)
Definition draw (w : World) (i : nat) : Z := entropy w (i + drawn w) mod 2 ^ 1074.

(** The group [s4] makes of a random value. *)
Definition s4Of (k : Z) : string :=
  substringFrom 1 (toString16 (floorTimes0x10000 (onePlus k))).

Definition secretOf (w : World) : string :=
  (((s4Of (draw w 0) ++ s4Of (draw w 1)) ++ s4Of (draw w 2)) ++ s4Of (draw w 3))%string.

Definition mapProp (k : string) (f : JsVal -> JsVal) (o : JsVal) : JsVal :=
  match o with
  | JObj fields =>
      JObj (map (fun kv => if String.eqb (fst kv) k then (fst kv, f (snd kv)) else kv)
                fields)
  | _ => o
  end.

Fixpoint mapNth (i : nat) (f : JsVal -> JsVal) (l : list JsVal) : list JsVal :=
  match l, i with
  | [], _ => []
  | x :: rest, O => f x :: rest
  | x :: rest, S i' => x :: mapNth i' f rest
  end.

Definition mapElem (i : nat) (f : JsVal -> JsVal) (a : JsVal) : JsVal :=
  match a with
  | JArr elems => JArr (mapNth i f elems)
  | _ => a
  end.

(** [bc] with [bc.spec.triggers[2].generic.secret] and
    [bc.spec.triggers[3].github.secret] replaced, nothing else touched. *)
Definition withSecrets (generic github : JsVal) (bc : JsVal) : JsVal :=
  mapProp "spec"
    (mapProp "triggers"
       (fun triggers =>
          mapElem 2 (mapProp "generic" (mapProp "secret" (fun _ => generic)))
            (mapElem 3 (mapProp "github" (mapProp "secret" (fun _ => github)))
               triggers)))
    bc.

Definition genericSecretOf (bc : JsVal) : JsVal :=
  at_path (elem (at_path bc ["spec"; "triggers"]) 2) ["generic"; "secret"].

Definition githubSecretOf (bc : JsVal) : JsVal :=
  at_path (elem (at_path bc ["spec"; "triggers"]) 3) ["github"; "secret"].

(** Four groups of four hexadecimal characters. *)
Definition sixteenHex (s : string) : Prop :=
  exists a b c d : string,
    s = (a ++ b ++ c ++ d)%string
    /\ Forall (fun g => String.length g = 4%nat /\ allChars isHexChar g = true)
              [a; b; c; d].

Definition definedOr (v defaultValue : JsVal) : JsVal :=
  match v with
  | JUndefined => defaultValue
  | _ => v
  end.

Definition kindOf (o : JsVal) : JsVal := prop o "kind".

Definition appLabel (o : JsVal) : JsVal := at_path o ["metadata"; "labels"; "app"].

Definition generatedBy (o : JsVal) : JsVal :=
  at_path o ["metadata"; "annotations"; "openshift.io/generated-by"].

Fixpoint containsChar (c : ascii) (s : string) : bool :=
  match s with
  | EmptyString => false
  | String x s' => Ascii.eqb x c || containsChar c s'
  end.

(** What every entry made by the parser satisfies: the protocol is in
    upper case and holds no [/]. *)
Definition wellFormedPort (p : Port) : Prop :=
  toUpperCase (protocol p) = protocol p
  /\ containsChar "/"%char (protocol p) = false.

(** A key that spells a port: the container port in decimal, [/], the
    protocol. *)
Definition keyOfPort (p : Port) : string :=
  (numberToString (containerPort p) ++ "/" ++ protocol p)%string.


Definition elemsOf (a : JsVal) : list JsVal :=
  match a with
  | JArr elems => elems
  | _ => []
  end.

Definition metadataName (o : JsVal) : JsVal := at_path o ["metadata"; "name"].

(* ================================================================== *)
(** * Properties *)

(* ------------------------------------------------------------------ *)
(** ** Strings and keys *)

Lemma string_append_assoc (a b c : string) :
  ((a ++ b) ++ c = a ++ (b ++ c))%string.
Proof.
  induction a as [|x a IH]; simpl; [reflexivity | rewrite IH; reflexivity].
Qed.

Lemma mapString_append (f : ascii -> ascii) (a b : string) :
  mapString f (a ++ b) = (mapString f a ++ mapString f b)%string.
Proof.
  induction a as [|x a IH]; simpl; [reflexivity | rewrite IH; reflexivity].
Qed.

Lemma split_not_nil (sep : ascii) (s : string) : split sep s <> [].
Proof.
  induction s as [|c s IH]; simpl.
  - discriminate.
  - destruct (Ascii.eqb c sep); [discriminate|].
    destruct (split sep s); [contradiction | discriminate].
Qed.

Lemma portIteratee_KeyName (this : Receiver) (value : JsVal) (key : string)
      (ports : list Port) :
  portIteratee this value (Lodash.KeyName key) ports =
  match portOfKey key with
  | Some p => ret (ports ++ [p])
  | None => (_ <- this_Logger_warn this (warningFor key) ;; ret ports)%js
  end.
Proof.
  unfold portIteratee, portOfKey, warningFor, firstSegment, protocolSegment.
  destruct (split "/"%char key) as [|seg0 [|seg1 rest]] eqn:E.
  - exfalso. exact (split_not_nil _ _ E).
  - simpl. destruct (parseInt10 seg0); reflexivity.
  - simpl. destruct (parseInt10 seg0); reflexivity.
Qed.

Lemma exposedPorts_not_arrayLike (keys : list string) :
  Lodash.arrayLikeLength (exposedPorts keys) = None.
Proof.
  unfold Lodash.arrayLikeLength, exposedPorts.
  induction keys as [|k keys IH]; simpl.
  - reflexivity.
  - destruct (String.eqb k "length"); [reflexivity | exact IH].
Qed.

Lemma entries_exposedPorts (keys : list string) :
  Lodash.entries (exposedPorts keys) =
  map (fun k => (JObj [], Lodash.KeyName k)) keys.
Proof.
  unfold Lodash.entries. rewrite exposedPorts_not_arrayLike.
  unfold exposedPorts. rewrite map_map. reflexivity.
Qed.

(* ------------------------------------------------------------------ *)
(** ** The loop of [parsePortsFromSpec] *)

Lemma eachLoop_cons {S : Type} (iteratee : JsVal -> Lodash.Key -> S -> M S)
      (value : JsVal) (key : Lodash.Key) (rest : list (JsVal * Lodash.Key))
      (s : S) (w : World) :
  Lodash.eachLoop iteratee ((value, key) :: rest) s w =
  match iteratee value key s w with
  | (Normal s', w') => Lodash.eachLoop iteratee rest s' w'
  | (Throw e, w') => (Throw e, w')
  end.
Proof. reflexivity. Qed.

Lemma portIteratee_value_unused (this : Receiver) (v1 v2 : JsVal)
      (key : Lodash.Key) (ports : list Port) :
  portIteratee this v1 key ports = portIteratee this v2 key ports.
Proof. reflexivity. Qed.

(** The values of the mapping are never read: a mapping that is not
    array-like is parsed like the mapping of its keys to empty objects. *)
Lemma parsePortsFromSpec_values_unused (this : Receiver)
      (fields : list (string * JsVal)) (w : World) :
  Lodash.arrayLikeLength (JObj fields) = None ->
  parsePortsFromSpec_bound this (JObj fields) w
  = parsePortsFromSpec_bound this (exposedPorts (map fst fields)) w.
Proof.
  intros H. unfold parsePortsFromSpec_bound, Lodash.each.
  rewrite entries_exposedPorts. unfold Lodash.entries. rewrite H, map_map.
  clear H. generalize (@nil Port). revert w.
  induction fields as [|[k v] fields IH]; intros w acc; [reflexivity|].
  rewrite !map_cons. cbn [fst snd]. rewrite !eachLoop_cons.
  rewrite (portIteratee_value_unused this v (JObj [])).
  destruct (portIteratee this (JObj []) (Lodash.KeyName k) acc w) as [[acc'|e] w'].
  - apply IH.
  - reflexivity.
Qed.

(** While every key parses, the loop appends the keys' ports in order and
    leaves the world alone, whatever [this] is. *)
Lemma eachLoop_parsed (this : Receiver) (keys : list string) :
  forall (ports acc : list Port) (w : World),
    map portOfKey keys = map Some ports ->
    Lodash.eachLoop (portIteratee this)
                    (map (fun k => (JObj [], Lodash.KeyName k)) keys) acc w
    = (Normal (acc ++ ports), w).
Proof.
  induction keys as [|k keys IH]; intros ports acc w H.
  - destruct ports; [|discriminate]. simpl. rewrite app_nil_r. reflexivity.
  - destruct ports as [|p ports]; [discriminate|].
    simpl in H. injection H as Hk Hrest.
    rewrite map_cons, eachLoop_cons, portIteratee_KeyName, Hk.
    unfold ret at 1. rewrite (IH ports (acc ++ [p]) w Hrest).
    rewrite <- app_assoc. reflexivity.
Qed.

(** With [this] undefined, the first key that does not parse ends the loop
    with a [TypeError]; nothing is logged. *)
Lemma eachLoop_unparseable (keys : list string) :
  forall (acc : list Port) (w : World),
    (exists k, In k keys /\ portOfKey k = None) ->
    Lodash.eachLoop (portIteratee ThisUndefined)
                    (map (fun k => (JObj [], Lodash.KeyName k)) keys) acc w
    = (Throw TypeError, w).
Proof.
  induction keys as [|k keys IH]; intros acc w [bad [Hin Hbad]].
  - destruct Hin.
  - rewrite map_cons, eachLoop_cons, portIteratee_KeyName.
    destruct (portOfKey k) as [p|] eqn:Ek.
    + unfold ret at 1. apply IH. exists bad. split; [|exact Hbad].
      destruct Hin as [->|Hin]; [congruence | exact Hin].
    + reflexivity.
Qed.

(** Had the iteratee a receiver with a [Logger], the loop would drop the
    keys that do not parse and warn once for each. *)
Lemma eachLoop_with_logger (keys : list string) :
  forall (acc : list Port) (w : World),
    Lodash.eachLoop (portIteratee (ThisObject true))
                    (map (fun k => (JObj [], Lodash.KeyName k)) keys) acc w
    = (Normal (acc ++ keptPorts keys), addWarnings (expectedWarnings keys) w).
Proof.
  induction keys as [|k keys IH]; intros acc w.
  - simpl. unfold ret, addWarnings. rewrite !app_nil_r. destruct w; reflexivity.
  - rewrite map_cons, eachLoop_cons, portIteratee_KeyName.
    simpl keptPorts. simpl expectedWarnings.
    destruct (portOfKey k) as [p|] eqn:Ek.
    + unfold ret at 1. rewrite IH, <- app_assoc. reflexivity.
    + unfold this_Logger_warn, bind, logWarning, ret at 1. rewrite IH.
      unfold addWarnings. simpl. rewrite <- app_assoc. reflexivity.
Qed.

Lemma parsePortsFromSpec_with_logger (keys : list string) (w : World) :
  parsePortsFromSpec_bound (ThisObject true) (exposedPorts keys) w
  = (Normal (keptPorts keys), addWarnings (expectedWarnings keys) w).
Proof.
  unfold parsePortsFromSpec_bound, Lodash.each.
  rewrite entries_exposedPorts. apply (eachLoop_with_logger keys []).
Qed.

Lemma parsePortsFromSpec_parsed (keys : list string) (ports : list Port) (w : World) :
  map portOfKey keys = map Some ports ->
  parsePortsFromSpec (exposedPorts keys) w = (Normal ports, w).
Proof.
  intros H. unfold parsePortsFromSpec, parsePortsFromSpec_bound, Lodash.each.
  rewrite entries_exposedPorts.
  apply (eachLoop_parsed ThisUndefined keys ports [] w H).
Qed.

Lemma parsePortsFromSpec_unparseable (keys : list string) (w : World) :
  (exists k, In k keys /\ portOfKey k = None) ->
  parsePortsFromSpec (exposedPorts keys) w = (Throw TypeError, w).
Proof.
  intros H. unfold parsePortsFromSpec, parsePortsFromSpec_bound, Lodash.each.
  rewrite entries_exposedPorts. apply eachLoop_unparseable. exact H.
Qed.

Lemma keys_parse_or_not (keys : list string) :
  (exists ports, map portOfKey keys = map Some ports)
  \/ (exists k, In k keys /\ portOfKey k = None).
Proof.
  induction keys as [|k keys [[ports IH]|[bad [Hin Hbad]]]].
  - left. exists []. reflexivity.
  - destruct (portOfKey k) as [p|] eqn:E.
    + left. exists (p :: ports). simpl. rewrite E, IH. reflexivity.
    + right. exists k. simpl. auto.
  - right. exists bad. simpl. auto.
Qed.

(** C3. Every key of an exposed-ports mapping is split on [/], a key of
    one segment gets the protocol [tcp], and a key whose first segment
    parses makes the iteratee append the entry made of that integer and
    the second segment in upper case; the list the parser returns holds
    the keys' entries in the mapping's order. [{"8080/tcp": {}}] and
    [{"8080": {}}] both give [[{containerPort: 8080, protocol: "TCP"}]]. *)
Theorem parsePortsFromSpec_in_order :
  forall (keys : list string) (w : World),
    (forall (this : Receiver) (value : JsVal) (key : string)
            (ports : list Port) (n : Z),
        parseInt10 (nth 0 (split "/"%char key) EmptyString) = Int n ->
        portIteratee this value (Lodash.KeyName key) ports w
        = (Normal (ports ++ [mkPort n (toUpperCase
                                         (match split "/"%char key with
                                          | [_] => "tcp"
                                          | segs => nth 1 segs EmptyString
                                          end))]),
           w))
    /\ (forall ports : list Port,
          map portOfKey keys = map Some ports ->
          parsePortsFromSpec (exposedPorts keys) w = (Normal ports, w))
    /\ (forall (ports : list Port) (w' : World),
          parsePortsFromSpec (exposedPorts keys) w = (Normal ports, w') ->
          map portOfKey keys = map Some ports /\ w' = w)
    /\ parsePortsFromSpec (exposedPorts ["8080/tcp"]) w
       = (Normal [mkPort 8080 "TCP"], w)
    /\ parsePortsFromSpec (exposedPorts ["8080"]) w
       = (Normal [mkPort 8080 "TCP"], w).
Proof.
  intros keys w. split; [|split; [|split; [|split]]].
  - intros this value key ports n Hn.
    rewrite portIteratee_KeyName. unfold portOfKey, firstSegment, protocolSegment.
    destruct (split "/"%char key) as [|seg0 [|seg1 rest]] eqn:E;
      [exfalso; exact (split_not_nil _ _ E) | |];
      cbn [nth] in Hn; rewrite Hn; reflexivity.
  - intros ports H. apply parsePortsFromSpec_parsed. exact H.
  - intros ports w' H.
    destruct (keys_parse_or_not keys) as [[ports' Hp]|Hbad].
    + rewrite (parsePortsFromSpec_parsed keys ports' w Hp) in H.
      injection H as <- <-. auto.
    + rewrite (parsePortsFromSpec_unparseable keys w Hbad) in H. discriminate.
  - apply parsePortsFromSpec_parsed. reflexivity.
  - apply parsePortsFromSpec_parsed. reflexivity.
Qed.

Lemma parsePortsFromSpec_in_order_witness :
  parsePortsFromSpec (exposedPorts ["443"; "8080/tcp"; "53/udp"]) quietWorld
  = (Normal [mkPort 443 "TCP"; mkPort 8080 "TCP"; mkPort 53 "UDP"], quietWorld)
  /\ portIteratee ThisUndefined (JObj []) (Lodash.KeyName "53/udp")
                  [mkPort 443 "TCP"] quietWorld
     = (Normal [mkPort 443 "TCP"; mkPort 53 "UDP"], quietWorld)
  /\ map portOfKey ["443"; "8080/tcp"; "53/udp"]
     = map Some [mkPort 443 "TCP"; mkPort 8080 "TCP"; mkPort 53 "UDP"].
Proof.
  destruct (parsePortsFromSpec_in_order ["443"; "8080/tcp"; "53/udp"] quietWorld)
    as (Hkey & Hall & Hback & _).
  split; [|split].
  - apply Hall. reflexivity.
  - apply (Hkey ThisUndefined (JObj []) "53/udp" [mkPort 443 "TCP"] 53).
    reflexivity.
  - apply (Hback _ quietWorld). reflexivity.
Defined.

(** C2. On [{"abc/tcp": {}}] the parser raises a [TypeError] instead of
    warning and skipping: the iteratee's [this] is undefined, so the read
    of [this.Logger] throws before anything is logged. *)
Theorem parsePortsFromSpec_abc_throws :
  forall w : World,
    portOfKey "abc/tcp" = None
    /\ parsePortsFromSpec (exposedPorts ["abc/tcp"]) w = (Throw TypeError, w)
    /\ parsePortsFromSpec (exposedPorts ["8080/tcp"; "abc/tcp"; "443/tcp"]) w
       = (Throw TypeError, w)
    /\ parsePortsFromSpec_bound (ThisObject true) (exposedPorts ["abc/tcp"]) w
       = (Normal [], addWarnings ["Container port abc is not a number"] w).
Proof.
  intros w. split; [reflexivity|]. split; [|split].
  - apply parsePortsFromSpec_unparseable. exists "abc/tcp". simpl. auto.
  - apply parsePortsFromSpec_unparseable. exists "abc/tcp". simpl. auto.
  - apply parsePortsFromSpec_with_logger.
Qed.

(* ------------------------------------------------------------------ *)
(** ** [parseInt] on the first segment *)

Ltac ascii_cases c := destruct c as [[] [] [] [] [] [] [] []].

Lemma parseInt10_unsignedBody (s : string) :
  parseInt10 s = NaN <-> startsWithDigit (unsignedBody s) = false.
Proof.
  unfold parseInt10, unsignedBody.
  destruct (trimStart s) as [|c t]; [simpl; tauto|].
  assert (body : forall u, (leadingDigits u = [] <-> startsWithDigit u = false)).
  { intros [|d u]; simpl; [tauto|]. destruct (isDigit d); split; congruence. }
  ascii_cases c;
    match goal with
    | |- context [leadingDigits ?u] =>
        specialize (body u); destruct (leadingDigits u) eqn:E;
        split; intros H; try discriminate; try reflexivity;
        try (apply body; reflexivity);
        try (apply body in H; discriminate)
    end.
Qed.

Lemma leadingDigits_app (digits rest : string) :
  allChars isDigit digits = true ->
  startsWithDigit rest = false ->
  leadingDigits (digits ++ rest) = list_ascii_of_string digits.
Proof.
  intros Hd Hr. induction digits as [|c digits IH]; simpl in *.
  - destruct rest as [|d rest]; [reflexivity|]. simpl in Hr. simpl.
    rewrite Hr. reflexivity.
  - apply andb_true_iff in Hd as [Hc Hd]. rewrite Hc, (IH Hd). reflexivity.
Qed.

Lemma binary64_exact (n : Z) :
  0 <= n <= MAX_SAFE_INTEGER -> binary64 n = n.
Proof.
  unfold MAX_SAFE_INTEGER, binary64. intros Hn.
  assert (L : Z.log2 n <= 52).
  { destruct (Z.eq_dec n 0) as [->|Hz]; [cbn; lia|].
    assert (Z.log2 n < 53); [|lia].
    apply Z.log2_lt_pow2; [lia|]. change (2 ^ 53) with 9007199254740992. lia. }
  destruct (Z.leb_spec (Z.log2 n - 52) 0); [reflexivity | lia].
Qed.

Lemma digitsValue_nonneg (ds : list ascii) :
  forall acc : Z,
    0 <= acc -> Forall (fun d => isDigit d = true) ds ->
    0 <= fold_left (fun a d => 10 * a + digitValue d) ds acc.
Proof.
  induction ds as [|d ds IH]; intros acc Hacc F; cbn [fold_left]; [exact Hacc|].
  inversion F as [|? ? Hd Hds]; subst. apply IH; [|exact Hds].
  unfold isDigit in Hd. apply andb_true_iff in Hd as [Hlo _].
  apply Z.leb_le in Hlo. unfold digitValue. lia.
Qed.

Lemma allChars_Forall (p : ascii -> bool) (s : string) :
  allChars p s = true -> Forall (fun c => p c = true) (list_ascii_of_string s).
Proof.
  induction s as [|c s IH]; cbn [allChars list_ascii_of_string]; intros H.
  - constructor.
  - apply andb_true_iff in H as [Hc Hs]. constructor; [exact Hc | exact (IH Hs)].
Qed.

Lemma decimalValue_nonneg (digits : string) :
  allChars isDigit digits = true -> 0 <= decimalValue digits.
Proof.
  intros H. unfold decimalValue, digitsValue.
  apply digitsValue_nonneg; [lia | exact (allChars_Forall _ _ H)].
Qed.

(** What the model of [parseInt] gives for a digit prefix of any length:
    the digits' value rounded to binary64. *)
Lemma parseInt10_prefix_rounded (digits rest : string) :
  digits <> EmptyString ->
  allChars isDigit digits = true ->
  startsWithDigit rest = false ->
  parseInt10 (digits ++ rest) = Int (binary64 (decimalValue digits)).
Proof.
  intros Hne Hd Hr.
  destruct digits as [|c digits]; [contradiction|].
  pose proof (leadingDigits_app (String c digits) rest Hd Hr) as L.
  simpl in Hd. apply andb_true_iff in Hd as [Hc Hd].
  unfold parseInt10, decimalValue.
  change (String c digits ++ rest)%string with (String c (digits ++ rest)%string) in *.
  assert (T : trimStart (String c (digits ++ rest)) = String c (digits ++ rest)).
  { simpl. ascii_cases c; try discriminate Hc; reflexivity. }
  rewrite T.
  assert (S : match String c (digits ++ rest) with
              | String "-"%char r => (-1, r)
              | String "+"%char r => (1, r)
              | _ => (1, String c (digits ++ rest))
              end = (1, String c (digits ++ rest))).
  { ascii_cases c; try discriminate Hc; reflexivity. }
  rewrite S, L. cbn [list_ascii_of_string]. cbv iota.
  f_equal. apply Z.mul_1_l.
Qed.

(** Up to [MAX_SAFE_INTEGER] the value is the digits' own. *)
Lemma parseInt10_prefix (digits rest : string) :
  digits <> EmptyString ->
  allChars isDigit digits = true ->
  startsWithDigit rest = false ->
  decimalValue digits <= MAX_SAFE_INTEGER ->
  parseInt10 (digits ++ rest) = Int (decimalValue digits).
Proof.
  intros Hne Hd Hr Hb.
  rewrite (parseInt10_prefix_rounded digits rest Hne Hd Hr).
  rewrite binary64_exact; [reflexivity|].
  split; [exact (decimalValue_nonneg digits Hd) | exact Hb].
Qed.

Lemma parsePortsFromSpec_single (key : string) (w : World) :
  parsePortsFromSpec (exposedPorts [key]) w =
  match portOfKey key with
  | Some p => (Normal [p], w)
  | None => (Throw TypeError, w)
  end.
Proof.
  destruct (portOfKey key) as [p|] eqn:E.
  - apply parsePortsFromSpec_parsed. simpl. rewrite E. reflexivity.
  - apply parsePortsFromSpec_unparseable. exists key. simpl. auto.
Qed.

(** C10, as amended. A key whose first segment begins with decimal digits
    worth at most [MAX_SAFE_INTEGER] and goes on with something else is
    accepted, with the value of the digits as its container port
    ([8080abc/tcp] gives 8080); a key is turned down only when its first
    segment, after leading blanks and a sign, does not begin with a
    digit. *)
Theorem parsePortsFromSpec_numeric_prefix :
  forall (key digits rest : string) (w : World),
    firstSegment key = (digits ++ rest)%string ->
    digits <> EmptyString ->
    allChars isDigit digits = true ->
    startsWithDigit rest = false ->
    decimalValue digits <= MAX_SAFE_INTEGER ->
    parsePortsFromSpec (exposedPorts [key]) w
    = (Normal [mkPort (decimalValue digits) (toUpperCase (protocolSegment key))], w)
    /\ (forall (this : Receiver) (value : JsVal) (ports : list Port),
          portIteratee this value (Lodash.KeyName key) ports w
          = (Normal (ports ++ [mkPort (decimalValue digits)
                                      (toUpperCase (protocolSegment key))]), w))
    /\ (forall (other : string),
          (exists p, parsePortsFromSpec (exposedPorts [other]) w = (Normal [p], w))
          <-> startsWithDigit (unsignedBody (firstSegment other)) = true)
    /\ parsePortsFromSpec (exposedPorts ["8080abc/tcp"]) w
       = (Normal [mkPort 8080 "TCP"], w).
Proof.
  intros key digits rest w Hseg Hne Hd Hr Hb. split; [|split; [|split]].
  - rewrite parsePortsFromSpec_single. unfold portOfKey.
    rewrite Hseg, (parseInt10_prefix digits rest Hne Hd Hr Hb). reflexivity.
  - intros this value ports. rewrite portIteratee_KeyName. unfold portOfKey.
    rewrite Hseg, (parseInt10_prefix digits rest Hne Hd Hr Hb). reflexivity.
  - intros other. rewrite parsePortsFromSpec_single. unfold portOfKey.
    pose proof (parseInt10_unsignedBody (firstSegment other)) as N.
    destruct (parseInt10 (firstSegment other)) as [|n].
    + split.
      * intros [p Hp]. discriminate.
      * intros Hs. destruct N as [N _]. rewrite (N eq_refl) in Hs. discriminate.
    + split.
      * intros _. destruct (startsWithDigit (unsignedBody (firstSegment other)));
          [reflexivity|]. destruct N as [_ N]. discriminate (N eq_refl).
      * intros _. eexists. reflexivity.
  - rewrite parsePortsFromSpec_single. reflexivity.
Qed.

Lemma parsePortsFromSpec_numeric_prefix_witness :
  parsePortsFromSpec (exposedPorts ["8080abc/tcp"]) quietWorld
  = (Normal [mkPort (decimalValue "8080") (toUpperCase (protocolSegment "8080abc/tcp"))],
     quietWorld).
Proof.
  apply (parsePortsFromSpec_numeric_prefix "8080abc/tcp" "8080" "abc" quietWorld).
  - reflexivity.
  - discriminate.
  - reflexivity.
  - reflexivity.
  - vm_compute. discriminate.
Defined.

(** The claim without the bound fails: the first segment of
    [9007199254740993abc/tcp] begins with the digits of 2^53 + 1, and the
    entry is accepted with the container port 2^53, the binary64 nearest
    to them. *)
Lemma parsePortsFromSpec_numeric_prefix_counterexample :
  firstSegment "9007199254740993abc/tcp" = ("9007199254740993" ++ "abc")%string
  /\ allChars isDigit "9007199254740993" = true
  /\ startsWithDigit "abc" = false
  /\ decimalValue "9007199254740993" = 9007199254740993
  /\ parsePortsFromSpec (exposedPorts ["9007199254740993abc/tcp"]) quietWorld
     = (Normal [mkPort 9007199254740992 "TCP"], quietWorld)
  /\ parsePortsFromSpec (exposedPorts ["9007199254740993abc/tcp"]) quietWorld
     <> (Normal [mkPort (decimalValue "9007199254740993")
                        (toUpperCase (protocolSegment "9007199254740993abc/tcp"))],
         quietWorld).
Proof.
  assert (R : parsePortsFromSpec (exposedPorts ["9007199254740993abc/tcp"]) quietWorld
              = (Normal [mkPort 9007199254740992 "TCP"], quietWorld))
    by (rewrite parsePortsFromSpec_single; vm_compute; reflexivity).
  repeat split; try reflexivity; try exact R.
  rewrite R. intros H. vm_compute in H. discriminate H.
Qed.

(* ------------------------------------------------------------------ *)
(** ** [generateSecret] *)

Lemma generateSecret_run (w : World) :
  generateSecret w = (Normal (secretOf w), advance 4 w).
Proof. reflexivity. Qed.

Lemma onePlus_range (k : Z) :
  0 <= k < 2 ^ 1074 ->
  4503599627370496 <= onePlus k <= 9007199254740992.
Proof.
  intros Hk. unfold onePlus, roundNearestEven.
  change 1074 with (52 + 1022) in *.
  rewrite Z.pow_add_r in * by lia.
  change (2 ^ 52) with 4503599627370496 in *.
  assert (P : 0 < 2 ^ 1022) by (apply Z.pow_pos_nonneg; lia).
  set (p := 2 ^ 1022) in *.
  assert (Hlo : 4503599627370496 <= (4503599627370496 * p + k) / p)
    by (apply Z.div_le_lower_bound; lia).
  assert (Hhi : (4503599627370496 * p + k) / p < 9007199254740992)
    by (apply Z.div_lt_upper_bound; lia).
  destruct (_ <? _); [lia|]. destruct (_ <? _); [lia|].
  destruct (Z.even _); lia.
Qed.

Lemma floorTimes0x10000_range (m : Z) :
  4503599627370496 <= m <= 9007199254740992 ->
  65536 <= floorTimes0x10000 m <= 131072.
Proof.
  intros Hm. unfold floorTimes0x10000.
  change (2 ^ 52) with 4503599627370496.
  split.
  - apply Z.div_le_lower_bound; lia.
  - assert ((m * 65536) / 4503599627370496 < 131073)
      by (apply Z.div_lt_upper_bound; lia).
    lia.
Qed.

Lemma hexDigit_isHexChar (d : Z) :
  0 <= d < 16 -> isHexChar (hexDigit d) = true.
Proof.
  intros Hd.
  assert (C : d = 0 \/ d = 1 \/ d = 2 \/ d = 3 \/ d = 4 \/ d = 5 \/ d = 6 \/ d = 7
              \/ d = 8 \/ d = 9 \/ d = 10 \/ d = 11 \/ d = 12 \/ d = 13 \/ d = 14
              \/ d = 15) by lia.
  repeat (destruct C as [->|C]; [reflexivity|]). subst d. reflexivity.
Qed.

Lemma toString16_five_digits (n : Z) :
  65536 <= n < 1048576 ->
  toString16 n =
  String (hexDigit (n / 65536))
    (String (hexDigit ((n / 4096) mod 16))
       (String (hexDigit ((n / 256) mod 16))
          (String (hexDigit ((n / 16) mod 16))
             (String (hexDigit (n mod 16)) EmptyString)))).
Proof.
  intros Hn. unfold toString16.
  assert (L : 16 <= Z.log2 n).
  { change 16 with (Z.log2 65536). apply Z.log2_le_mono. lia. }
  destruct (Z.to_nat (Z.log2 n)) as [|[|[|[|fuel]]]] eqn:E; try lia.
  cbn [hexDigits].
  rewrite !Z.div_div by lia.
  change (16 * 16) with 256. change (256 * 16) with 4096.
  change (4096 * 16) with 65536. change (65536 * 16) with 1048576.
  assert (H1 : (n / 16 =? 0) = false) by (apply Z.eqb_neq; intros H0;
    assert (16 * 4096 <= 16 * (n / 16) + n mod 16) by
      (rewrite <- Z.div_mod by lia; lia);
    pose proof (Z.mod_pos_bound n 16); lia).
  assert (H2 : (n / 256 =? 0) = false) by (apply Z.eqb_neq; intros H0;
    assert (256 * 256 <= 256 * (n / 256) + n mod 256) by
      (rewrite <- Z.div_mod by lia; lia);
    pose proof (Z.mod_pos_bound n 256); lia).
  assert (H3 : (n / 4096 =? 0) = false) by (apply Z.eqb_neq; intros H0;
    assert (4096 * 16 <= 4096 * (n / 4096) + n mod 4096) by
      (rewrite <- Z.div_mod by lia; lia);
    pose proof (Z.mod_pos_bound n 4096); lia).
  assert (H4 : (n / 65536 =? 0) = false) by (apply Z.eqb_neq; intros H0;
    assert (65536 <= 65536 * (n / 65536) + n mod 65536) by
      (rewrite <- Z.div_mod by lia; lia);
    pose proof (Z.mod_pos_bound n 65536); lia).
  assert (H5 : (n / 1048576 =? 0) = true)
    by (apply Z.eqb_eq; apply Z.div_small; lia).
  rewrite H1, H2, H3, H4, H5.
  assert (H6 : (n / 65536) mod 16 = n / 65536).
  { apply Z.mod_small. split.
    - apply Z.div_pos; lia.
    - apply Z.div_lt_upper_bound; lia. }
  rewrite H6. reflexivity.
Qed.

(** A group is four hexadecimal characters, whatever [Math.random()]
    returned. *)
Lemma s4Of_group (k : Z) :
  0 <= k < 2 ^ 1074 ->
  String.length (s4Of k) = 4%nat /\ allChars isHexChar (s4Of k) = true.
Proof.
  intros Hk. unfold s4Of.
  pose proof (floorTimes0x10000_range _ (onePlus_range k Hk)) as R.
  set (n := floorTimes0x10000 (onePlus k)) in *.
  rewrite toString16_five_digits by lia.
  cbn [substringFrom String.length allChars].
  split; [reflexivity|].
  rewrite !hexDigit_isHexChar; try reflexivity;
    try (apply Z.mod_pos_bound; lia).
Qed.

Lemma draw_range (w : World) (i : nat) : 0 <= draw w i < 2 ^ 1074.
Proof.
  unfold draw. apply Z.mod_pos_bound. apply Z.pow_pos_nonneg; lia.
Qed.

(* ------------------------------------------------------------------ *)
(** ** [makeBuildConfig] *)

Lemma secretOf_sixteenHex (w : World) : sixteenHex (secretOf w).
Proof.
  exists (s4Of (draw w 0)), (s4Of (draw w 1)), (s4Of (draw w 2)), (s4Of (draw w 3)).
  split.
  - unfold secretOf. rewrite !string_append_assoc. reflexivity.
  - repeat constructor; apply s4Of_group; apply draw_range.
Qed.

Ltac run_makeBuildConfig :=
  unfold makeBuildConfig, bind;
  rewrite !generateSecret_run;
  cbv beta iota zeta.

(** The build config is always produced, and consumes eight random
    values. *)
Lemma makeBuildConfig_returns (config : IBuilderAppConfig) (w : World) :
  exists bc, makeBuildConfig config w = (Normal bc, advance 8 w).
Proof.
  run_makeBuildConfig.
  destruct (truthy (jsOpt (contextDir config))); eexists; reflexivity.
Qed.

(** C8. With [gitRef] empty or missing the build config's
    [spec.source.git.ref] is ["master"]; with a non-empty [gitRef] it is
    that value, and [spec.source.git.uri] is [config.repository]. *)
Theorem makeBuildConfig_gitRef :
  forall (config : IBuilderAppConfig) (w : World),
  exists bc w',
    makeBuildConfig config w = (Normal bc, w')
    /\ (gitRef config = None \/ gitRef config = Some EmptyString ->
        at_path bc ["spec"; "source"; "git"; "ref"] = JStr "master")
    /\ (forall ref : string,
          gitRef config = Some ref -> ref <> EmptyString ->
          at_path bc ["spec"; "source"; "git"; "ref"] = JStr ref
          /\ at_path bc ["spec"; "source"; "git"; "uri"] = JStr (repository config)).
Proof.
  intros config w. run_makeBuildConfig.
  destruct (truthy (jsOpt (contextDir config)));
    (eexists; eexists; split; [reflexivity|]);
    generalize (secretOf w) (secretOf (advance 4 w)); intros g h;
    (split; [intros [E|E]; rewrite E; reflexivity|]);
    intros ref E Hne; rewrite E;
    (destruct ref as [|c ref]; [contradiction|]); split; reflexivity.
Qed.

Lemma makeBuildConfig_gitRef_witness :
  (exists bc w',
     makeBuildConfig (myapp []) quietWorld = (Normal bc, w')
     /\ at_path bc ["spec"; "source"; "git"; "ref"] = JStr "master")
  /\ (exists bc w',
        makeBuildConfig
          (mkConfig "myapp" "https://example.com/r.git" (Some "develop") None
                    (nodeTag []))
          quietWorld = (Normal bc, w')
        /\ at_path bc ["spec"; "source"; "git"; "ref"] = JStr "develop"
        /\ at_path bc ["spec"; "source"; "git"; "uri"]
           = JStr "https://example.com/r.git").
Proof.
  split.
  - destruct (makeBuildConfig_gitRef (myapp []) quietWorld)
      as (bc & w' & Hrun & Hdefault & _).
    exists bc, w'. split; [exact Hrun|]. apply Hdefault. right. reflexivity.
  - destruct (makeBuildConfig_gitRef
                (mkConfig "myapp" "https://example.com/r.git" (Some "develop") None
                          (nodeTag []))
                quietWorld)
      as (bc & w' & Hrun & _ & Hgiven).
    exists bc, w'. split; [exact Hrun|].
    apply (Hgiven "develop"); [reflexivity | discriminate].
Defined.

(** C9. With [contextDir] empty or missing the build config's
    [spec.source] has the members [git] and [type] and no [contextDir]
    member; with a non-empty [contextDir] it has the member, equal to
    [config.contextDir]. *)
Theorem makeBuildConfig_contextDir :
  forall (config : IBuilderAppConfig) (w : World),
  exists bc w',
    makeBuildConfig config w = (Normal bc, w')
    /\ (contextDir config = None \/ contextDir config = Some EmptyString ->
        hasOwn "contextDir" (fieldsOf (at_path bc ["spec"; "source"])) = false
        /\ map fst (fieldsOf (at_path bc ["spec"; "source"])) = ["git"; "type"])
    /\ (forall dir : string,
          contextDir config = Some dir -> dir <> EmptyString ->
          hasOwn "contextDir" (fieldsOf (at_path bc ["spec"; "source"])) = true
          /\ at_path bc ["spec"; "source"; "contextDir"] = JStr dir).
Proof.
  intros config w. run_makeBuildConfig.
  destruct (contextDir config) as [[|c dir]|];
    (eexists; eexists; split; [reflexivity|]);
    generalize (secretOf w) (secretOf (advance 4 w)); intros g h;
    (split; [intros [E|E]; try discriminate E; split; reflexivity|]);
    intros d E Hne; try discriminate E;
    injection E as <-; try contradiction; split; reflexivity.
Qed.

Lemma makeBuildConfig_contextDir_witness :
  (exists bc w',
     makeBuildConfig (myapp []) quietWorld = (Normal bc, w')
     /\ hasOwn "contextDir" (fieldsOf (at_path bc ["spec"; "source"])) = false)
  /\ (exists bc w',
        makeBuildConfig
          (mkConfig "myapp" "https://example.com/r.git" None (Some "services/api")
                    (nodeTag []))
          quietWorld = (Normal bc, w')
        /\ at_path bc ["spec"; "source"; "contextDir"] = JStr "services/api").
Proof.
  split.
  - destruct (makeBuildConfig_contextDir (myapp []) quietWorld)
      as (bc & w' & Hrun & Habsent & _).
    exists bc, w'. split; [exact Hrun|]. apply Habsent. right. reflexivity.
  - destruct (makeBuildConfig_contextDir
                (mkConfig "myapp" "https://example.com/r.git" None
                          (Some "services/api") (nodeTag []))
                quietWorld)
      as (bc & w' & Hrun & _ & Hgiven).
    exists bc, w'. split; [exact Hrun|].
    apply (Hgiven "services/api"); [reflexivity | discriminate].
Defined.

(** C7. Two constructions from one config give build configs that agree
    everywhere but in the Generic and the GitHub trigger's secret: each is
    the other with these two members replaced. Within one construction
    the two secrets are the results of two successive calls of
    [generateSecret], which between them consume eight random values, and
    each secret is sixteen hexadecimal characters in four groups of
    four. *)
Theorem makeBuildConfig_secrets :
  forall (config : IBuilderAppConfig) (w1 w2 : World),
  exists bc1 bc2 : JsVal,
    makeBuildConfig config w1 = (Normal bc1, advance 8 w1)
    /\ makeBuildConfig config w2 = (Normal bc2, advance 8 w2)
    /\ bc1 = withSecrets (genericSecretOf bc1) (githubSecretOf bc1) bc2
    /\ exists (generic github : string) (w1' : World),
         generateSecret w1 = (Normal generic, w1')
         /\ generateSecret w1' = (Normal github, advance 8 w1)
         /\ w1' = advance 4 w1
         /\ genericSecretOf bc1 = JStr generic
         /\ githubSecretOf bc1 = JStr github
         /\ sixteenHex generic
         /\ sixteenHex github.
Proof.
  intros config w1 w2. run_makeBuildConfig.
  pose proof (secretOf_sixteenHex w1) as G.
  pose proof (secretOf_sixteenHex (advance 4 w1)) as H.
  assert (R : generateSecret (advance 4 w1)
              = (Normal (secretOf (advance 4 w1)), advance 8 w1))
    by reflexivity.
  revert G H R.
  generalize (secretOf w1) (secretOf (advance 4 w1))
             (secretOf w2) (secretOf (advance 4 w2)).
  intros g1 h1 g2 h2 G H R.
  destruct (contextDir config) as [[|c dir]|];
    (eexists; eexists; split; [reflexivity|]; split; [reflexivity|];
     split; [reflexivity|]);
    exists g1, h1, (advance 4 w1); repeat split; assumption.
Qed.

(* ------------------------------------------------------------------ *)
(** ** [getPorts] *)

Lemma at_path_undefined (path : list string) : at_path JUndefined path = JUndefined.
Proof. induction path as [|k path IH]; [reflexivity | exact IH]. Qed.

Lemma baseGet_at_path (path : list string) :
  forall o : JsVal, Lodash.baseGet o path = at_path o path.
Proof.
  induction path as [|k path IH]; intros o; [reflexivity|].
  unfold at_path. cbn [Lodash.baseGet fold_left]. fold (at_path (prop o k) path).
  destruct o; try apply IH; cbn [prop]; rewrite at_path_undefined; reflexivity.
Qed.

Lemma at_path_null (k : string) (path : list string) :
  at_path JNull (k :: path) = JUndefined.
Proof. exact (at_path_undefined path). Qed.

Lemma get_at_path (o : JsVal) (path : string) (defaultValue : JsVal) :
  hasMember o path = false ->
  Lodash.get o path defaultValue
  = definedOr (at_path o (split "."%char path)) defaultValue.
Proof.
  intros H. unfold Lodash.get, definedOr, Lodash.castPath. rewrite H.
  destruct o;
    try (rewrite baseGet_at_path; destruct (at_path _ _); reflexivity).
  - rewrite at_path_undefined. reflexivity.
  - destruct (split "."%char path) as [|k rest] eqn:E.
    + exfalso. exact (split_not_nil _ _ E).
    + rewrite at_path_null. reflexivity.
Qed.

(** A member named by the whole dotted path is read in place of the
    nested members. *)
Lemma get_flat_member (o : JsVal) (path : string) (defaultValue : JsVal) :
  hasMember o path = true ->
  Lodash.get o path defaultValue = definedOr (prop o path) defaultValue.
Proof.
  intros H. unfold Lodash.get, definedOr, Lodash.castPath. rewrite H.
  destruct o; try discriminate H. cbn [Lodash.baseGet].
  destruct (prop (JObj fields) path); reflexivity.
Qed.

(** C6, as amended. For an image without a member named by a whole
    dotted path, [getPorts] parses
    [image.dockerImageMetadata.Config.ExposedPorts] when that is truthy;
    otherwise it parses
    [image.dockerImageMetadata.ContainerConfig.ExposedPorts]; and when
    that is missing too it returns the empty list of ports, without an
    error. *)
Theorem getPorts_fallback :
  forall (ist : ImageStreamTag) (w : World),
    hasMember (image ist) "dockerImageMetadata.Config.ExposedPorts" = false ->
    hasMember (image ist) "dockerImageMetadata.ContainerConfig.ExposedPorts" = false ->
    let configPorts :=
      at_path (image ist) ["dockerImageMetadata"; "Config"; "ExposedPorts"] in
    let containerConfigPorts :=
      at_path (image ist) ["dockerImageMetadata"; "ContainerConfig"; "ExposedPorts"] in
    (truthy configPorts = true ->
     getPorts ist w = parsePortsFromSpec configPorts w)
    /\ (truthy configPorts = false -> containerConfigPorts <> JUndefined ->
        getPorts ist w = parsePortsFromSpec containerConfigPorts w)
    /\ (truthy configPorts = false -> containerConfigPorts = JUndefined ->
        getPorts ist w = (Normal [], w)).
Proof.
  intros ist w F1 F2 configPorts containerConfigPorts.
  unfold getPorts. rewrite (get_at_path _ _ _ F1), (get_at_path _ _ _ F2).
  change (split "."%char "dockerImageMetadata.Config.ExposedPorts")
    with ["dockerImageMetadata"; "Config"; "ExposedPorts"].
  change (split "."%char "dockerImageMetadata.ContainerConfig.ExposedPorts")
    with ["dockerImageMetadata"; "ContainerConfig"; "ExposedPorts"].
  fold configPorts. fold containerConfigPorts.
  assert (E : definedOr configPorts JUndefined = configPorts)
    by (destruct configPorts; reflexivity).
  rewrite E. unfold or_else, definedOr.
  split; [|split].
  - intros T. rewrite T. reflexivity.
  - intros T N. rewrite T. destruct containerConfigPorts; reflexivity.
  - intros T U. rewrite T, U. reflexivity.
Qed.

Lemma getPorts_fallback_witness :
  getPorts (nodeTag ["8080/tcp"]) quietWorld
  = parsePortsFromSpec (exposedPorts ["8080/tcp"]) quietWorld
  /\ getPorts
       (mkImageStreamTag (mkObjectMeta (JStr "node") (JStr "openshift"))
          (JObj [("dockerImageMetadata", JObj [
             ("Config", JObj []);
             ("ContainerConfig", JObj [("ExposedPorts", exposedPorts ["53/udp"])])])]))
       quietWorld
     = parsePortsFromSpec (exposedPorts ["53/udp"]) quietWorld
  /\ getPorts (mkImageStreamTag (mkObjectMeta (JStr "node") (JStr "openshift"))
                                JUndefined) quietWorld
     = (Normal [], quietWorld).
Proof.
  split; [|split].
  - apply (getPorts_fallback (nodeTag ["8080/tcp"]) quietWorld); reflexivity.
  - apply (getPorts_fallback
             (mkImageStreamTag (mkObjectMeta (JStr "node") (JStr "openshift"))
                (JObj [("dockerImageMetadata", JObj [
                   ("Config", JObj []);
                   ("ContainerConfig",
                    JObj [("ExposedPorts", exposedPorts ["53/udp"])])])]))
             quietWorld).
    + reflexivity.
    + reflexivity.
    + reflexivity.
    + discriminate.
  - apply (getPorts_fallback
             (mkImageStreamTag (mkObjectMeta (JStr "node") (JStr "openshift"))
                               JUndefined)
             quietWorld); reflexivity.
Defined.

(** The claim without the condition fails: this image has neither nested
    path, yet [getPorts] returns the port of the member named by the
    whole dotted path. *)
Lemma getPorts_fallback_counterexample :
  at_path (image flatMemberTag) ["dockerImageMetadata"; "Config"; "ExposedPorts"]
  = JUndefined
  /\ at_path (image flatMemberTag)
             ["dockerImageMetadata"; "ContainerConfig"; "ExposedPorts"]
     = JUndefined
  /\ getPorts flatMemberTag quietWorld = (Normal [mkPort 8080 "TCP"], quietWorld)
  /\ getPorts flatMemberTag quietWorld <> (Normal [], quietWorld).
Proof.
  repeat split; try reflexivity.
  intros H. vm_compute in H. discriminate H.
Qed.

(** An exposed-ports mapping that is present but empty is truthy: there is
    no fallback, and there are no ports. *)
Example getPorts_empty_mapping_no_fallback :
  getPorts
    (mkImageStreamTag (mkObjectMeta (JStr "node") (JStr "openshift"))
       (JObj [("dockerImageMetadata", JObj [
          ("Config", JObj [("ExposedPorts", exposedPorts [])]);
          ("ContainerConfig", JObj [("ExposedPorts", exposedPorts ["53/udp"])])])]))
    quietWorld
  = (Normal [], quietWorld).
Proof. reflexivity. Qed.

(* ------------------------------------------------------------------ *)
(** ** [makeAPIObjects] *)

Lemma makeAPIObjects_run (config : IBuilderAppConfig) (w w' : World)
      (ports : list Port) :
  getPorts (imageStreamTag config) w = (Normal ports, w') ->
  exists bc,
    makeBuildConfig config w' = (Normal bc, advance 8 w')
    /\ makeAPIObjects config w
       = (Normal ([makeImageStream config; bc; makeDeploymentConfig config ports]
                  ++ match ports with
                     | [] => []
                     | firstPort :: _ =>
                         [makeService config firstPort; makeRoute config firstPort]
                     end),
          advance 8 w').
Proof.
  intros H. destruct (makeBuildConfig_returns config w') as [bc Hbc].
  exists bc. split; [exact Hbc|].
  unfold makeAPIObjects, bind. rewrite H, Hbc.
  destruct ports; reflexivity.
Qed.

Lemma makeAPIObjects_throws (config : IBuilderAppConfig) (w w' : World) (e : Error) :
  getPorts (imageStreamTag config) w = (Throw e, w') ->
  makeAPIObjects config w = (Throw e, w').
Proof.
  intros H. unfold makeAPIObjects, bind. rewrite H. reflexivity.
Qed.

Lemma makeBuildConfig_header (config : IBuilderAppConfig) (w w' : World) (bc : JsVal) :
  makeBuildConfig config w = (Normal bc, w') ->
  kindOf bc = JStr "BuildConfig"
  /\ appLabel bc = JStr (name config)
  /\ generatedBy bc = JStr "OpenShiftWebConsole".
Proof.
  unfold makeBuildConfig, bind. rewrite !generateSecret_run. cbv beta iota zeta.
  generalize (secretOf w) (secretOf (advance 4 w)). intros g h.
  destruct (truthy (jsOpt (contextDir config))); unfold ret; intros H;
    injection H as <- _; repeat split; reflexivity.
Qed.

(** C1. When the image stream tag gives no port, [makeAPIObjects] returns
    three objects, an ImageStream, a BuildConfig and a DeploymentConfig in
    this order; when it gives at least one port, five objects, the same
    three followed by the Service and the Route made from the first
    port. *)
Theorem makeAPIObjects_kinds :
  forall (config : IBuilderAppConfig) (w : World),
    (forall w' : World,
        getPorts (imageStreamTag config) w = (Normal [], w') ->
        exists objects w'',
          makeAPIObjects config w = (Normal objects, w'')
          /\ List.length objects = 3%nat
          /\ map kindOf objects
             = [JStr "ImageStream"; JStr "BuildConfig"; JStr "DeploymentConfig"])
    /\ (forall (w' : World) (firstPort : Port) (others : list Port),
          getPorts (imageStreamTag config) w = (Normal (firstPort :: others), w') ->
          exists objects w'',
            makeAPIObjects config w = (Normal objects, w'')
            /\ List.length objects = 5%nat
            /\ map kindOf objects
               = [JStr "ImageStream"; JStr "BuildConfig"; JStr "DeploymentConfig";
                  JStr "Service"; JStr "Route"]
            /\ nth_error objects 3 = Some (makeService config firstPort)
            /\ nth_error objects 4 = Some (makeRoute config firstPort)).
Proof.
  intros config w. split.
  - intros w' G.
    destruct (makeAPIObjects_run config w w' [] G) as (bc & Hbc & Hrun).
    destruct (makeBuildConfig_header config w' _ bc Hbc) as (K & _).
    eexists. eexists. split; [exact Hrun|]. split; [reflexivity|].
    cbn [map app]. rewrite K. reflexivity.
  - intros w' firstPort others G.
    destruct (makeAPIObjects_run config w w' (firstPort :: others) G)
      as (bc & Hbc & Hrun).
    destruct (makeBuildConfig_header config w' _ bc Hbc) as (K & _).
    eexists. eexists. split; [exact Hrun|]. split; [reflexivity|].
    cbn [map app]. rewrite K. repeat split; reflexivity.
Qed.

Lemma makeAPIObjects_kinds_witness :
  (exists objects w'',
     makeAPIObjects (myapp []) quietWorld = (Normal objects, w'')
     /\ List.length objects = 3%nat
     /\ map kindOf objects
        = [JStr "ImageStream"; JStr "BuildConfig"; JStr "DeploymentConfig"])
  /\ (exists objects w'',
        makeAPIObjects (myapp ["8080/tcp"; "8443/tcp"]) quietWorld
        = (Normal objects, w'')
        /\ List.length objects = 5%nat
        /\ map kindOf objects
           = [JStr "ImageStream"; JStr "BuildConfig"; JStr "DeploymentConfig";
              JStr "Service"; JStr "Route"]
        /\ nth_error objects 3
           = Some (makeService (myapp ["8080/tcp"; "8443/tcp"]) (mkPort 8080 "TCP"))
        /\ nth_error objects 4
           = Some (makeRoute (myapp ["8080/tcp"; "8443/tcp"]) (mkPort 8080 "TCP"))).
Proof.
  split.
  - apply (makeAPIObjects_kinds (myapp []) quietWorld) with (w' := quietWorld).
    reflexivity.
  - apply (makeAPIObjects_kinds (myapp ["8080/tcp"; "8443/tcp"]) quietWorld)
      with (w' := quietWorld) (others := [mkPort 8443 "TCP"]).
    reflexivity.
Defined.

(** C4. Every object [makeAPIObjects] returns, of the three or of the
    five, has [metadata.labels.app] equal to [config.name] and
    [metadata.annotations["openshift.io/generated-by"]] equal to
    ["OpenShiftWebConsole"]. *)
Theorem makeAPIObjects_labels :
  forall (config : IBuilderAppConfig) (w w' : World) (objects : list JsVal),
    makeAPIObjects config w = (Normal objects, w') ->
    (List.length objects = 3%nat \/ List.length objects = 5%nat)
    /\ Forall (fun o => appLabel o = JStr (name config)
                        /\ generatedBy o = JStr "OpenShiftWebConsole")
              objects.
Proof.
  intros config w w' objects H.
  destruct (getPorts (imageStreamTag config) w) as [[ports|e] w1] eqn:G.
  - destruct (makeAPIObjects_run config w w1 ports G) as (bc & Hbc & Hrun).
    destruct (makeBuildConfig_header config w1 _ bc Hbc) as (_ & L & A).
    rewrite Hrun in H. injection H as <- _.
    destruct ports as [|firstPort others]; cbn [app].
    + split; [left; reflexivity|].
      repeat constructor; try assumption; reflexivity.
    + split; [right; reflexivity|].
      repeat constructor; try assumption; reflexivity.
  - rewrite (makeAPIObjects_throws config w w1 e G) in H. discriminate.
Qed.

Lemma makeAPIObjects_labels_witness :
  exists objects w',
    makeAPIObjects (myapp ["8080/tcp"]) countingWorld = (Normal objects, w')
    /\ List.length objects = 5%nat
    /\ Forall (fun o => appLabel o = JStr "myapp"
                        /\ generatedBy o = JStr "OpenShiftWebConsole")
              objects.
Proof.
  destruct (makeAPIObjects_run (myapp ["8080/tcp"]) countingWorld countingWorld
                               [mkPort 8080 "TCP"] eq_refl)
    as (bc & _ & Hrun).
  eexists. eexists. split; [exact Hrun|]. split; [reflexivity|].
  apply (makeAPIObjects_labels (myapp ["8080/tcp"]) countingWorld _ _ Hrun).
Defined.

(* ------------------------------------------------------------------ *)
(** ** Port names *)

Lemma lowerChar_upperChar (c : ascii) : lowerChar (upperChar c) = lowerChar c.
Proof. ascii_cases c; reflexivity. Qed.

Lemma toLowerCase_toUpperCase (s : string) :
  toLowerCase (toUpperCase s) = toLowerCase s.
Proof.
  induction s as [|c s IH]; [reflexivity|].
  unfold toLowerCase, toUpperCase in *. simpl mapString.
  rewrite lowerChar_upperChar, IH. reflexivity.
Qed.

Lemma toLowerCase_uint (u : Decimal.uint) :
  toLowerCase (NilEmpty.string_of_uint u) = NilEmpty.string_of_uint u.
Proof.
  unfold toLowerCase.
  induction u; simpl; try rewrite IHu; reflexivity.
Qed.

Lemma toLowerCase_uint_zero (u : Decimal.uint) :
  toLowerCase (NilZero.string_of_uint u) = NilZero.string_of_uint u.
Proof.
  destruct u; try reflexivity;
    exact (toLowerCase_uint _).
Qed.

Lemma toLowerCase_numberToString (n : Z) :
  toLowerCase (numberToString n) = numberToString n.
Proof.
  unfold numberToString, NilZero.string_of_int.
  destruct (Z.to_int n) as [u|u].
  - apply toLowerCase_uint_zero.
  - change (toLowerCase (String "-" (NilZero.string_of_uint u)))
      with (String "-" (toLowerCase (NilZero.string_of_uint u))).
    rewrite toLowerCase_uint_zero. reflexivity.
Qed.

(** C5. The port name is the lower case of [containerPort + "-" +
    protocol], ["8080-tcp"] for 8080/TCP; and when there is a port, the
    Service's one port entry is named with the port name of the first
    port and the Route's [spec.port.targetPort] is that same string. *)
Theorem getPortName_shared :
  forall (config : IBuilderAppConfig) (w w' : World)
         (firstPort : Port) (others : list Port),
    getPorts (imageStreamTag config) w = (Normal (firstPort :: others), w') ->
    (forall port : Port,
        getPortName port
        = toLowerCase (numberToString (containerPort port) ++ "-" ++ protocol port))
    /\ (forall (n : Z) (proto : string),
          getPortName (mkPort n (toUpperCase proto))
          = (numberToString n ++ "-" ++ toLowerCase proto)%string)
    /\ getPortName (mkPort 8080 "TCP") = "8080-tcp"
    /\ exists (imageStream bc dc service route entry : JsVal) (w'' : World),
         makeAPIObjects config w
         = (Normal [imageStream; bc; dc; service; route], w'')
         /\ at_path service ["spec"; "ports"] = JArr [entry]
         /\ prop entry "name" = JStr (getPortName firstPort)
         /\ at_path route ["spec"; "port"; "targetPort"]
            = JStr (getPortName firstPort).
Proof.
  intros config w w' firstPort others G.
  split; [reflexivity|]. split; [|split; [reflexivity|]].
  - intros n proto. unfold getPortName. cbn [containerPort protocol].
    unfold toLowerCase at 1. rewrite !mapString_append.
    fold (toLowerCase (numberToString n)). fold (toLowerCase (toUpperCase proto)).
    rewrite toLowerCase_numberToString, toLowerCase_toUpperCase. reflexivity.
  - destruct (makeAPIObjects_run config w w' (firstPort :: others) G)
      as (bc & Hbc & Hrun).
    do 6 eexists. eexists. split; [exact Hrun|].
    repeat split; reflexivity.
Qed.

Lemma getPortName_shared_witness :
  exists (imageStream bc dc service route entry : JsVal) (w'' : World),
    makeAPIObjects (myapp ["8080/tcp"]) quietWorld
    = (Normal [imageStream; bc; dc; service; route], w'')
    /\ at_path service ["spec"; "ports"] = JArr [entry]
    /\ prop entry "name" = JStr (getPortName (mkPort 8080 "TCP"))
    /\ at_path route ["spec"; "port"; "targetPort"]
       = JStr (getPortName (mkPort 8080 "TCP")).
Proof.
  apply (getPortName_shared (myapp ["8080/tcp"]) quietWorld quietWorld
                            (mkPort 8080 "TCP") []).
  reflexivity.
Defined.

(* ------------------------------------------------------------------ *)
(** ** End to end *)

(** The config [myapp] over an image that exposes [8080/tcp] gives five
    objects: the DeploymentConfig's container has the one port 8080/TCP,
    the Service exposes port 8080 under the name ["8080-tcp"], and the
    Route targets the port ["8080-tcp"]. *)
Example makeAPIObjects_myapp :
  exists imageStream bc dc service route w',
    makeAPIObjects (myapp ["8080/tcp"]) countingWorld
    = (Normal [imageStream; bc; dc; service; route], w')
    /\ at_path (elem (at_path dc ["spec"; "template"; "spec"; "containers"]) 0)
               ["ports"]
       = JArr [JObj [("containerPort", JNum 8080); ("protocol", JStr "TCP")]]
    /\ at_path service ["spec"; "ports"]
       = JArr [JObj [("port", JNum 8080); ("targetPort", JNum 8080);
                     ("protocol", JStr "TCP"); ("name", JStr "8080-tcp")]]
    /\ at_path route ["spec"; "port"; "targetPort"] = JStr "8080-tcp"
    /\ at_path bc ["spec"; "source"; "git"; "ref"] = JStr "master"
    /\ genericSecretOf bc = JStr "30394f286e178d06"
    /\ githubSecretOf bc = JStr "abf5cae4e9d308c2".
Proof.
  do 6 eexists. split; [vm_compute; reflexivity|].
  repeat split; reflexivity.
Qed.

(* ================================================================== *)
(** * Further properties of the service *)

(* ------------------------------------------------------------------ *)
(** ** Decimal text and [parseInt] *)

Lemma string_append_nil_r (s : string) : (s ++ "")%string = s.
Proof. induction s as [|c s IH]; simpl; [reflexivity | rewrite IH; reflexivity]. Qed.

Lemma uint_allDigits (u : Decimal.uint) :
  allChars isDigit (NilEmpty.string_of_uint u) = true.
Proof. induction u; simpl; try rewrite IHu; reflexivity. Qed.

Lemma uint_digits_acc (u : Decimal.uint) :
  forall acc : positive,
    fold_left (fun a d => 10 * a + digitValue d)
              (list_ascii_of_string (NilEmpty.string_of_uint u)) (Z.pos acc)
    = Z.pos (Pos.of_uint_acc u acc).
Proof.
  induction u; intros acc; cbn [NilEmpty.string_of_uint list_ascii_of_string
                                fold_left Pos.of_uint_acc];
    try reflexivity;
    rewrite <- IHu; f_equal; unfold digitValue, code; simpl N_of_ascii; lia.
Qed.

Lemma uint_digits_value (u : Decimal.uint) :
  decimalValue (NilEmpty.string_of_uint u) = Z.of_uint u.
Proof.
  unfold decimalValue, digitsValue, Z.of_uint.
  induction u; cbn [NilEmpty.string_of_uint list_ascii_of_string fold_left
                    Pos.of_uint];
    try reflexivity; try exact IHu;
    match goal with
    | |- fold_left _ _ ?z = _ =>
        let v := eval vm_compute in z in change z with v
    end;
    apply uint_digits_acc.
Qed.

Lemma uint_zero_shape (u : Decimal.uint) :
  NilZero.string_of_uint u <> EmptyString
  /\ allChars isDigit (NilZero.string_of_uint u) = true
  /\ decimalValue (NilZero.string_of_uint u) = Z.of_uint u.
Proof.
  destruct u;
    [repeat split; try reflexivity; discriminate | ..];
    match goal with
    | |- context [NilZero.string_of_uint ?d] =>
        split; [discriminate|];
        split; [exact (uint_allDigits d) | exact (uint_digits_value d)]
    end.
Qed.

(** The decimal text of an integer: a sign for a negative one, then at
    least one digit, whose value is the integer's absolute value. *)
Lemma numberToString_shape (n : Z) :
  exists digits : string,
    digits <> EmptyString
    /\ allChars isDigit digits = true
    /\ decimalValue digits = Z.abs n
    /\ numberToString n = if n <? 0 then String "-" digits else digits.
Proof.
  pose proof (DecimalZ.of_to n) as R.
  unfold numberToString, NilZero.string_of_int.
  destruct n as [|p|p]; cbn [Z.to_int Z.of_int] in *.
  - exists "0". repeat split; try reflexivity. discriminate.
  - destruct (uint_zero_shape (Pos.to_uint p)) as (Hne & Hd & Hv).
    exists (NilZero.string_of_uint (Pos.to_uint p)).
    repeat split; try assumption. rewrite Hv. exact R.
  - destruct (uint_zero_shape (Pos.to_uint p)) as (Hne & Hd & Hv).
    exists (NilZero.string_of_uint (Pos.to_uint p)).
    repeat split; try assumption. rewrite Hv. cbn [Z.abs]. lia.
Qed.

Lemma parseInt10_minus (digits rest : string) :
  digits <> EmptyString ->
  allChars isDigit digits = true ->
  startsWithDigit rest = false ->
  decimalValue digits <= MAX_SAFE_INTEGER ->
  parseInt10 (String "-" (digits ++ rest)) = Int (- decimalValue digits).
Proof.
  intros Hne Hd Hr Hb. unfold parseInt10.
  change (trimStart (String "-" (digits ++ rest))) with (String "-" (digits ++ rest)).
  cbv iota beta. rewrite (leadingDigits_app digits rest Hd Hr).
  pose proof (binary64_exact (decimalValue digits)
                (conj (decimalValue_nonneg digits Hd) Hb)) as B.
  unfold decimalValue in *.
  destruct digits as [|c digits]; [contradiction|].
  cbn [list_ascii_of_string] in *. cbv iota. rewrite B. f_equal; lia.
Qed.

(** [parseInt] reads back the decimal text of an integer of at most
    [MAX_SAFE_INTEGER] in absolute value, whatever follows it, as long as
    no digit follows. *)
Lemma parseInt10_numberToString (n : Z) (rest : string) :
  Z.abs n <= MAX_SAFE_INTEGER ->
  startsWithDigit rest = false ->
  parseInt10 (numberToString n ++ rest) = Int n.
Proof.
  intros Hb Hr.
  destruct (numberToString_shape n) as (digits & Hne & Hd & Hv & Hs).
  rewrite <- Hv in Hb.
  rewrite Hs. destruct (Z.ltb_spec n 0) as [Hn|Hn].
  - change (String "-" digits ++ rest)%string with (String "-" (digits ++ rest)).
    rewrite (parseInt10_minus digits rest Hne Hd Hr Hb), Hv. f_equal. lia.
  - rewrite (parseInt10_prefix digits rest Hne Hd Hr Hb), Hv. f_equal. lia.
Qed.

(** X8. The number at the head of a port name reads back as the
    container port: [parseInt(getPortName(port), 10)] is
    [port.containerPort], for every port whose container port is at most
    [MAX_SAFE_INTEGER] in absolute value, negative ones included. *)
Theorem getPortName_reads_back :
  forall port : Port,
    Z.abs (containerPort port) <= MAX_SAFE_INTEGER ->
    parseInt10 (getPortName port) = Int (containerPort port).
Proof.
  intros [n proto] Hb. unfold getPortName. cbn [containerPort protocol] in *.
  unfold toLowerCase. rewrite mapString_append.
  fold (toLowerCase (numberToString n)). rewrite toLowerCase_numberToString.
  apply parseInt10_numberToString; [exact Hb | reflexivity].
Qed.

Lemma getPortName_reads_back_witness :
  parseInt10 (getPortName (mkPort (-8080) "TCP")) = Int (-8080)
  /\ getPortName (mkPort (-8080) "TCP") = "-8080-tcp".
Proof.
  split; [|reflexivity].
  apply (getPortName_reads_back (mkPort (-8080) "TCP")).
  vm_compute. discriminate.
Defined.

(* ------------------------------------------------------------------ *)
(** ** Segments of a key *)

Lemma split_without_sep (sep : ascii) (s : string) :
  containsChar sep s = false -> split sep s = [s].
Proof.
  induction s as [|c s IH]; [reflexivity|]. cbn [containsChar split].
  intros H. apply orb_false_iff in H as [Hc Hs].
  rewrite Hc, (IH Hs). reflexivity.
Qed.

Lemma split_at_sep (sep : ascii) (a b : string) :
  containsChar sep a = false ->
  split sep (a ++ String sep b) = a :: split sep b.
Proof.
  induction a as [|c a IH]; cbn [containsChar append split]; intros H.
  - rewrite Ascii.eqb_refl. reflexivity.
  - apply orb_false_iff in H as [Hc Ha]. rewrite Hc, (IH Ha). reflexivity.
Qed.

Lemma split_segments_without_sep (sep : ascii) (s : string) :
  Forall (fun seg => containsChar sep seg = false) (split sep s).
Proof.
  induction s as [|c s IH]; cbn [split].
  - repeat constructor.
  - destruct (Ascii.eqb c sep) eqn:E.
    + constructor; [reflexivity | exact IH].
    + destruct (split sep s) as [|seg segs].
      * repeat constructor. cbn [containsChar]. rewrite E. reflexivity.
      * inversion IH as [|? ? Hseg Hsegs]; subst.
        constructor; [|exact Hsegs]. cbn [containsChar]. rewrite E. exact Hseg.
Qed.

Lemma digits_without_slash (digits : string) :
  allChars isDigit digits = true -> containsChar "/"%char digits = false.
Proof.
  induction digits as [|c digits IH]; [reflexivity|]. cbn [allChars containsChar].
  intros H. apply andb_true_iff in H as [Hc Hd]. rewrite (IH Hd), orb_false_r.
  ascii_cases c; try discriminate Hc; reflexivity.
Qed.

Lemma numberToString_without_slash (n : Z) :
  containsChar "/"%char (numberToString n) = false.
Proof.
  destruct (numberToString_shape n) as (digits & _ & Hd & _ & Hs).
  rewrite Hs. destruct (n <? 0); [cbn [containsChar]|];
    rewrite (digits_without_slash digits Hd); reflexivity.
Qed.

Lemma upperChar_idempotent (c : ascii) : upperChar (upperChar c) = upperChar c.
Proof. ascii_cases c; reflexivity. Qed.

Lemma toUpperCase_idempotent (s : string) :
  toUpperCase (toUpperCase s) = toUpperCase s.
Proof.
  unfold toUpperCase. induction s as [|c s IH]; [reflexivity|].
  cbn [mapString]. rewrite upperChar_idempotent, IH. reflexivity.
Qed.

Lemma upperChar_slash (c : ascii) :
  Ascii.eqb (upperChar c) "/" = Ascii.eqb c "/".
Proof. ascii_cases c; reflexivity. Qed.

Lemma toUpperCase_slash (s : string) :
  containsChar "/"%char (toUpperCase s) = containsChar "/"%char s.
Proof.
  unfold toUpperCase. induction s as [|c s IH]; [reflexivity|].
  cbn [mapString containsChar]. rewrite upperChar_slash, IH. reflexivity.
Qed.

Lemma protocolSegment_without_slash (key : string) :
  containsChar "/"%char (protocolSegment key) = false.
Proof.
  unfold protocolSegment.
  pose proof (split_segments_without_sep "/"%char key) as F.
  destruct (split "/"%char key) as [|seg0 [|seg1 rest]]; try reflexivity.
  inversion F as [|? ? _ F1]; subst. inversion F1; subst. assumption.
Qed.

Lemma portOfKey_wellFormed (key : string) (p : Port) :
  portOfKey key = Some p -> wellFormedPort p.
Proof.
  unfold portOfKey. destruct (parseInt10 (firstSegment key)); [discriminate|].
  intros H. injection H as <-. split; cbn [protocol].
  - apply toUpperCase_idempotent.
  - rewrite toUpperCase_slash. apply protocolSegment_without_slash.
Qed.

(** X9. A port written as the key [<containerPort>/<protocol>] parses
    back to itself, when its container port is at most
    [MAX_SAFE_INTEGER] in absolute value and its protocol is ASCII, in
    upper case and without [/]; the parser checks no port range, so a
    negative port or one above 65535 comes back as well. *)
Theorem parsePortsFromSpec_keyOfPort :
  forall (port : Port) (w : World),
    Z.abs (containerPort port) <= MAX_SAFE_INTEGER ->
    isAscii (protocol port) = true ->
    wellFormedPort port ->
    parsePortsFromSpec (exposedPorts [keyOfPort port]) w = (Normal [port], w).
Proof.
  intros [n proto] w Hb _ [Hup Hslash]. cbn [protocol containerPort] in *.
  rewrite parsePortsFromSpec_single.
  unfold portOfKey, firstSegment, protocolSegment, keyOfPort.
  cbn [containerPort protocol].
  change (numberToString n ++ "/" ++ proto)%string
    with (numberToString n ++ String "/" proto)%string.
  rewrite (split_at_sep "/"%char _ proto (numberToString_without_slash n)).
  rewrite (split_without_sep "/"%char proto Hslash).
  rewrite <- (string_append_nil_r (numberToString n)) at 1.
  rewrite (parseInt10_numberToString n "" Hb eq_refl), Hup. reflexivity.
Qed.

Lemma parsePortsFromSpec_keyOfPort_witness :
  parsePortsFromSpec (exposedPorts [keyOfPort (mkPort (-53) "UDP")]) quietWorld
  = (Normal [mkPort (-53) "UDP"], quietWorld)
  /\ keyOfPort (mkPort (-53) "UDP") = "-53/UDP"
  /\ parsePortsFromSpec (exposedPorts [keyOfPort (mkPort 70000 "TCP")]) quietWorld
     = (Normal [mkPort 70000 "TCP"], quietWorld).
Proof.
  split; [|split; [reflexivity|]].
  - apply (parsePortsFromSpec_keyOfPort (mkPort (-53) "UDP") quietWorld).
    + vm_compute. discriminate.
    + reflexivity.
    + split; reflexivity.
  - apply (parsePortsFromSpec_keyOfPort (mkPort 70000 "TCP") quietWorld).
    + vm_compute. discriminate.
    + reflexivity.
    + split; reflexivity.
Defined.

(* ------------------------------------------------------------------ *)
(** ** The parser on any value *)

Lemma portIteratee_step (value : JsVal) (key : Lodash.Key) (acc : list Port)
      (w : World) :
  portIteratee ThisUndefined value key acc w = (Throw TypeError, w)
  \/ exists p, wellFormedPort p
               /\ portIteratee ThisUndefined value key acc w = (Normal (acc ++ [p]), w).
Proof.
  destruct key as [k|i]; [|left; reflexivity].
  rewrite portIteratee_KeyName.
  destruct (portOfKey k) as [p|] eqn:E; [right | left; reflexivity].
  exists p. split; [exact (portOfKey_wellFormed k p E) | reflexivity].
Qed.

Lemma eachLoop_portIteratee (visits : list (JsVal * Lodash.Key)) :
  forall (acc : list Port) (w : World),
    Forall wellFormedPort acc ->
    Lodash.eachLoop (portIteratee ThisUndefined) visits acc w = (Throw TypeError, w)
    \/ exists ports,
         Forall wellFormedPort ports
         /\ (List.length ports = List.length acc + List.length visits)%nat
         /\ Lodash.eachLoop (portIteratee ThisUndefined) visits acc w
            = (Normal ports, w).
Proof.
  induction visits as [|[value key] visits IH]; intros acc w Hacc.
  - right. exists acc. split; [exact Hacc|]. split; [cbn; lia | reflexivity].
  - rewrite eachLoop_cons.
    destruct (portIteratee_step value key acc w) as [->|(p & Hp & ->)];
      [left; reflexivity|].
    assert (Hacc' : Forall wellFormedPort (acc ++ [p])).
    { apply Forall_app. split; [exact Hacc|]. constructor; [exact Hp | constructor]. }
    destruct (IH (acc ++ [p]) w Hacc') as [->|(ports & Hw & Hl & ->)];
      [left; reflexivity|].
    right. exists ports. split; [exact Hw|]. split; [|reflexivity].
    rewrite Hl, length_app. cbn [List.length]. lia.
Qed.

Lemma parsePortsFromSpec_outcome (portSpec : JsVal) (w : World) :
  parsePortsFromSpec portSpec w = (Throw TypeError, w)
  \/ exists ports,
       Forall wellFormedPort ports
       /\ List.length ports = List.length (Lodash.entries portSpec)
       /\ parsePortsFromSpec portSpec w = (Normal ports, w).
Proof.
  unfold parsePortsFromSpec, parsePortsFromSpec_bound, Lodash.each.
  destruct (eachLoop_portIteratee (Lodash.entries portSpec) [] w (Forall_nil _))
    as [H|(ports & Hw & Hl & H)]; [left; exact H|].
  right. exists ports. auto.
Qed.

(** X1. Whatever value it is given, [parsePortsFromSpec] leaves the
    warning log and the random source as they were, and so does
    [getPorts]: the parser never logs a warning, not even for a key that
    does not parse. *)
Theorem parsePortsFromSpec_logs_nothing :
  forall (portSpec : JsVal) (ist : ImageStreamTag) (w : World),
    snd (parsePortsFromSpec portSpec w) = w
    /\ warnings (snd (parsePortsFromSpec portSpec w)) = warnings w
    /\ snd (getPorts ist w) = w.
Proof.
  intros portSpec ist w.
  assert (P : forall v, snd (parsePortsFromSpec v w) = w).
  { intros v. destruct (parsePortsFromSpec_outcome v w) as [->|(ports & _ & _ & ->)];
      reflexivity. }
  split; [apply P|]. split; [rewrite P; reflexivity|].
  unfold getPorts. apply P.
Qed.

(** X10. Every entry [parsePortsFromSpec] returns, from any value, has
    its protocol in upper case and free of [/], and there is exactly one
    entry for each member visited. *)
Theorem parsePortsFromSpec_entries_wellFormed :
  forall (portSpec : JsVal) (w w' : World) (ports : list Port),
    parsePortsFromSpec portSpec w = (Normal ports, w') ->
    Forall wellFormedPort ports
    /\ List.length ports = List.length (Lodash.entries portSpec).
Proof.
  intros portSpec w w' ports H.
  destruct (parsePortsFromSpec_outcome portSpec w) as [E|(ports' & Hw & Hl & E)];
    rewrite E in H; [discriminate|].
  injection H as <- _. auto.
Qed.

Lemma parsePortsFromSpec_entries_wellFormed_witness :
  Forall wellFormedPort [mkPort 8080 "TCP"; mkPort 53 "UDP"]
  /\ List.length [mkPort 8080 "TCP"; mkPort 53 "UDP"]
     = List.length (Lodash.entries (exposedPorts ["8080/tcp"; "53/udp/extra"])).
Proof.
  apply (parsePortsFromSpec_entries_wellFormed
           (exposedPorts ["8080/tcp"; "53/udp/extra"]) quietWorld quietWorld).
  reflexivity.
Defined.

(** X2. A port specification that is not an object: [undefined], [null],
    a boolean, a number, the empty string and the empty array give no
    port; a non-empty array or string makes the parser throw, because the
    iteratee is handed an index, which has no [split]. *)
Theorem parsePortsFromSpec_not_a_mapping :
  forall (w : World),
    parsePortsFromSpec JUndefined w = (Normal [], w)
    /\ parsePortsFromSpec JNull w = (Normal [], w)
    /\ (forall b : bool, parsePortsFromSpec (JBool b) w = (Normal [], w))
    /\ (forall n : Z, parsePortsFromSpec (JNum n) w = (Normal [], w))
    /\ parsePortsFromSpec (JStr EmptyString) w = (Normal [], w)
    /\ parsePortsFromSpec (JArr []) w = (Normal [], w)
    /\ parsePortsFromSpec (JObj []) w = (Normal [], w)
    /\ (forall (x : JsVal) (rest : list JsVal),
          parsePortsFromSpec (JArr (x :: rest)) w = (Throw TypeError, w))
    /\ (forall (c : ascii) (s : string),
          parsePortsFromSpec (JStr (String c s)) w = (Throw TypeError, w)).
Proof.
  intros w. repeat split; try reflexivity; intros; reflexivity.
Qed.

(* ------------------------------------------------------------------ *)
(** ** [makeAPIObjects] as a whole *)

Lemma getPorts_from_Config (ist : ImageStreamTag) (w : World) :
  hasMember (image ist) "dockerImageMetadata.Config.ExposedPorts" = false ->
  truthy (at_path (image ist) ["dockerImageMetadata"; "Config"; "ExposedPorts"]) = true ->
  getPorts ist w
  = parsePortsFromSpec
      (at_path (image ist) ["dockerImageMetadata"; "Config"; "ExposedPorts"]) w.
Proof.
  intros F T. unfold getPorts. rewrite (get_at_path _ _ JUndefined F).
  change (split "."%char "dockerImageMetadata.Config.ExposedPorts")
    with ["dockerImageMetadata"; "Config"; "ExposedPorts"].
  set (configPorts := at_path (image ist) _) in *.
  assert (E : definedOr configPorts JUndefined = configPorts)
    by (destruct configPorts; reflexivity).
  rewrite E. unfold or_else. rewrite T. reflexivity.
Qed.

(** X3. For a config whose image stream tag has its [metadata] (as every
    value of [IBuilderAppConfig] has), [makeAPIObjects] fails exactly
    when [getPorts] fails, with the same [TypeError] and before any
    random value is drawn; otherwise it returns three objects (no port)
    or five (some port), has called [Math.random()] eight times, and has
    logged nothing. *)
Theorem makeAPIObjects_outcome :
  forall (config : IBuilderAppConfig) (w : World),
    (getPorts (imageStreamTag config) w = (Throw TypeError, w)
     /\ makeAPIObjects config w = (Throw TypeError, w))
    \/ (exists (ports : list Port) (objects : list JsVal),
          getPorts (imageStreamTag config) w = (Normal ports, w)
          /\ makeAPIObjects config w = (Normal objects, advance 8 w)
          /\ List.length objects = match ports with [] => 3%nat | _ => 5%nat end
          /\ drawn (advance 8 w) = (8 + drawn w)%nat
          /\ warnings (advance 8 w) = warnings w).
Proof.
  intros config w.
  assert (G : getPorts (imageStreamTag config) w
              = parsePortsFromSpec
                  (or_else (Lodash.get (image (imageStreamTag config))
                              "dockerImageMetadata.Config.ExposedPorts" JUndefined)
                           (Lodash.get (image (imageStreamTag config))
                              "dockerImageMetadata.ContainerConfig.ExposedPorts"
                              (JArr []))) w) by reflexivity.
  destruct (parsePortsFromSpec_outcome
              (or_else (Lodash.get (image (imageStreamTag config))
                          "dockerImageMetadata.Config.ExposedPorts" JUndefined)
                       (Lodash.get (image (imageStreamTag config))
                          "dockerImageMetadata.ContainerConfig.ExposedPorts"
                          (JArr []))) w) as [E|(ports & _ & _ & E)];
    rewrite E in G.
  - left. split; [exact G|]. apply makeAPIObjects_throws. exact G.
  - right. destruct (makeAPIObjects_run config w w ports G) as (bc & _ & Hrun).
    exists ports. eexists. split; [exact G|]. split; [exact Hrun|].
    split; [destruct ports; reflexivity|]. split; reflexivity.
Qed.

(** X4. One key that does not parse is enough to lose every object: when
    the image has no member named by the whole dotted path
    [dockerImageMetadata.Config.ExposedPorts] and its nested
    [Config.ExposedPorts] mapping has such a key, [makeAPIObjects]
    throws, wherever the key stands among the others. *)
Theorem makeAPIObjects_unparseable_key :
  forall (config : IBuilderAppConfig) (keys : list string) (w : World),
    hasMember (image (imageStreamTag config))
              "dockerImageMetadata.Config.ExposedPorts" = false ->
    at_path (image (imageStreamTag config))
            ["dockerImageMetadata"; "Config"; "ExposedPorts"]
    = exposedPorts keys ->
    (exists k, In k keys /\ parseInt10 (firstSegment k) = NaN) ->
    makeAPIObjects config w = (Throw TypeError, w).
Proof.
  intros config keys w Hflat Hports (k & Hin & Hk).
  apply makeAPIObjects_throws.
  rewrite (getPorts_from_Config _ _ Hflat) by (rewrite Hports; reflexivity).
  rewrite Hports. apply parsePortsFromSpec_unparseable.
  exists k. split; [exact Hin|]. unfold portOfKey. rewrite Hk. reflexivity.
Qed.

Lemma makeAPIObjects_unparseable_key_witness :
  makeAPIObjects (myapp ["8080/tcp"; "8443/tcp"; "metrics/tcp"]) countingWorld
  = (Throw TypeError, countingWorld).
Proof.
  apply (makeAPIObjects_unparseable_key
           (myapp ["8080/tcp"; "8443/tcp"; "metrics/tcp"])
           ["8080/tcp"; "8443/tcp"; "metrics/tcp"] countingWorld).
  - reflexivity.
  - reflexivity.
  - exists "metrics/tcp". split; [cbn; auto | reflexivity].
Defined.

Lemma makeBuildConfig_skeleton (config : IBuilderAppConfig) (w w' : World)
      (bc : JsVal) :
  makeBuildConfig config w = (Normal bc, w') ->
  metadataName bc = JStr (name config)
  /\ prop bc "apiVersion" = JStr "v1"
  /\ at_path bc ["spec"; "output"; "to"]
     = JObj [("kind", JStr "ImageStreamTag");
             ("name", JStr (name config ++ ":latest")%string)]
  /\ at_path bc ["spec"; "source"; "type"] = JStr "Git"
  /\ at_path bc ["spec"; "strategy"; "type"] = JStr "Source"
  /\ at_path bc ["spec"; "strategy"; "sourceStrategy"; "from"]
     = JObj [("kind", JStr "ImageStreamTag");
             ("name", meta_name (metadata (imageStreamTag config)));
             ("namespace", meta_namespace (metadata (imageStreamTag config)))]
  /\ map (fun trigger => prop trigger "type")
         (elemsOf (at_path bc ["spec"; "triggers"]))
     = [JStr "ImageChange"; JStr "ConfigChange"; JStr "Generic"; JStr "GitHub"].
Proof.
  unfold makeBuildConfig, bind. rewrite !generateSecret_run. cbv beta iota zeta.
  generalize (secretOf w) (secretOf (advance 4 w)). intros g h.
  destruct (truthy (jsOpt (contextDir config))); unfold ret; intros H;
    injection H as <- _; repeat split; reflexivity.
Qed.

(** X12. Whatever the config's optional members and the random values,
    the build config writes its image to [<name>:latest], builds from Git
    with the Source strategy on the builder image named by
    [imageStreamTag.metadata], and has the four triggers ImageChange,
    ConfigChange, Generic, GitHub in this order. *)
Theorem makeBuildConfig_fixed_parts :
  forall (config : IBuilderAppConfig) (w : World),
  exists bc : JsVal,
    makeBuildConfig config w = (Normal bc, advance 8 w)
    /\ at_path bc ["spec"; "output"; "to"]
       = JObj [("kind", JStr "ImageStreamTag");
               ("name", JStr (name config ++ ":latest")%string)]
    /\ at_path bc ["spec"; "source"; "type"] = JStr "Git"
    /\ at_path bc ["spec"; "strategy"; "type"] = JStr "Source"
    /\ at_path bc ["spec"; "strategy"; "sourceStrategy"; "from"]
       = JObj [("kind", JStr "ImageStreamTag");
               ("name", meta_name (metadata (imageStreamTag config)));
               ("namespace", meta_namespace (metadata (imageStreamTag config)))]
    /\ map (fun trigger => prop trigger "type")
           (elemsOf (at_path bc ["spec"; "triggers"]))
       = [JStr "ImageChange"; JStr "ConfigChange"; JStr "Generic"; JStr "GitHub"].
Proof.
  intros config w. destruct (makeBuildConfig_returns config w) as [bc Hbc].
  exists bc. split; [exact Hbc|].
  destruct (makeBuildConfig_skeleton config w _ bc Hbc)
    as (_ & _ & Ho & Hs & Ht & Hf & Htr).
  repeat split; assumption.
Qed.

(** X5. The five objects refer to one another consistently: all carry
    [config.name] as their name; the Route points at the Service by that
    name; the Service's selector is the DeploymentConfig's selector and is
    among the pod template's labels; the image the BuildConfig writes is
    the one the DeploymentConfig's trigger watches and its container runs,
    and the triggered container is that container; the Service's port and
    target port are the first container port. *)
Theorem makeAPIObjects_wiring :
  forall (config : IBuilderAppConfig) (w w' : World)
         (firstPort : Port) (others : list Port),
    getPorts (imageStreamTag config) w = (Normal (firstPort :: others), w') ->
    exists (imageStream bc dc service route : JsVal) (w'' : World),
      makeAPIObjects config w = (Normal [imageStream; bc; dc; service; route], w'')
      /\ map metadataName [imageStream; bc; dc; service; route]
         = repeat (JStr (name config)) 5
      /\ at_path route ["spec"; "to"; "kind"] = kindOf service
      /\ at_path route ["spec"; "to"; "name"] = metadataName service
      /\ at_path service ["spec"; "selector"] = at_path dc ["spec"; "selector"]
      /\ at_path dc ["spec"; "template"; "metadata"; "labels"; "deploymentconfig"]
         = at_path service ["spec"; "selector"; "deploymentconfig"]
      /\ at_path (elem (at_path dc ["spec"; "triggers"]) 0)
                 ["imageChangeParams"; "from"]
         = at_path bc ["spec"; "output"; "to"]
      /\ at_path (elem (at_path dc ["spec"; "template"; "spec"; "containers"]) 0)
                 ["image"]
         = at_path bc ["spec"; "output"; "to"; "name"]
      /\ at_path (elem (at_path dc ["spec"; "triggers"]) 0)
                 ["imageChangeParams"; "containerNames"]
         = JArr [at_path (elem (at_path dc ["spec"; "template"; "spec"; "containers"]) 0)
                         ["name"]]
      /\ at_path (elem (at_path service ["spec"; "ports"]) 0) ["port"]
         = JNum (containerPort firstPort)
      /\ at_path (elem (at_path service ["spec"; "ports"]) 0) ["targetPort"]
         = at_path (elem (at_path (elem (at_path dc ["spec"; "template"; "spec";
                                                      "containers"]) 0)
                                  ["ports"]) 0)
                   ["containerPort"]
      /\ at_path (elem (at_path service ["spec"; "ports"]) 0) ["protocol"]
         = JStr (protocol firstPort).
Proof.
  intros config w w' firstPort others G.
  destruct (makeAPIObjects_run config w w' (firstPort :: others) G)
    as (bc & Hbc & Hrun).
  destruct (makeBuildConfig_skeleton config w' _ bc Hbc) as (Hn & _ & Ho & _).
  do 5 eexists. eexists. split; [exact Hrun|].
  assert (Hon : at_path bc ["spec"; "output"; "to"; "name"]
                = JStr (name config ++ ":latest")%string).
  { change (at_path bc ["spec"; "output"; "to"; "name"])
      with (prop (at_path bc ["spec"; "output"; "to"]) "name").
    rewrite Ho. reflexivity. }
  cbn [map]. rewrite Hn, Ho, Hon. repeat split; reflexivity.
Qed.

Lemma makeAPIObjects_wiring_witness :
  exists (imageStream bc dc service route : JsVal) (w'' : World),
    makeAPIObjects (myapp ["8080/tcp"; "8443/tcp"]) countingWorld
    = (Normal [imageStream; bc; dc; service; route], w'')
    /\ map metadataName [imageStream; bc; dc; service; route]
       = repeat (JStr "myapp") 5
    /\ at_path route ["spec"; "to"; "name"] = metadataName service
    /\ at_path (elem (at_path service ["spec"; "ports"]) 0) ["port"] = JNum 8080.
Proof.
  destruct (makeAPIObjects_wiring (myapp ["8080/tcp"; "8443/tcp"])
              countingWorld countingWorld (mkPort 8080 "TCP") [mkPort 8443 "TCP"]
              eq_refl)
    as (imageStream & bc & dc & service & route & w'' & Hrun & Hnames & _ & Hto
        & _ & _ & _ & _ & _ & Hport & _).
  exists imageStream, bc, dc, service, route, w''. auto.
Defined.

(** X6. The DeploymentConfig, third in the result, has one replica and one
    container, and that container lists every parsed port, in parse
    order, with an empty environment; its pod labels are the
    [deploymentconfig] label followed by the [app] label, both
    [config.name]. The Service, when there is one, has a single port. *)
Theorem makeAPIObjects_container_ports :
  forall (config : IBuilderAppConfig) (w w' : World) (ports : list Port),
    getPorts (imageStreamTag config) w = (Normal ports, w') ->
    exists (objects : list JsVal) (w'' : World),
      makeAPIObjects config w = (Normal objects, w'')
      /\ (let dc := nth 2 objects JUndefined in
          at_path dc ["spec"; "replicas"] = JNum 1
          /\ List.length (elemsOf (at_path dc ["spec"; "template"; "spec";
                                               "containers"])) = 1%nat
          /\ at_path (elem (at_path dc ["spec"; "template"; "spec"; "containers"]) 0)
                     ["ports"]
             = JArr (map (fun p => JObj [("containerPort", JNum (containerPort p));
                                         ("protocol", JStr (protocol p))])
                         ports)
          /\ at_path (elem (at_path dc ["spec"; "template"; "spec"; "containers"]) 0)
                     ["env"]
             = JArr []
          /\ at_path dc ["spec"; "template"; "metadata"; "labels"]
             = JObj [("deploymentconfig", JStr (name config));
                     ("app", JStr (name config))])
      /\ (ports <> [] ->
          List.length (elemsOf (at_path (nth 3 objects JUndefined) ["spec"; "ports"]))
          = 1%nat).
Proof.
  intros config w w' ports G.
  destruct (makeAPIObjects_run config w w' ports G) as (bc & _ & Hrun).
  eexists. eexists. split; [exact Hrun|]. split.
  - repeat split; reflexivity.
  - intros Hne. destruct ports; [contradiction | reflexivity].
Qed.

Lemma makeAPIObjects_container_ports_witness :
  exists (objects : list JsVal) (w'' : World),
    makeAPIObjects (myapp ["8080/tcp"; "8443/tcp"]) countingWorld
    = (Normal objects, w'')
    /\ at_path (elem (at_path (nth 2 objects JUndefined)
                              ["spec"; "template"; "spec"; "containers"]) 0)
               ["ports"]
       = JArr [JObj [("containerPort", JNum 8080); ("protocol", JStr "TCP")];
               JObj [("containerPort", JNum 8443); ("protocol", JStr "TCP")]]
    /\ List.length (elemsOf (at_path (nth 3 objects JUndefined) ["spec"; "ports"]))
       = 1%nat.
Proof.
  destruct (makeAPIObjects_container_ports (myapp ["8080/tcp"; "8443/tcp"])
              countingWorld countingWorld [mkPort 8080 "TCP"; mkPort 8443 "TCP"]
              eq_refl)
    as (objects & w'' & Hrun & (_ & _ & Hports & _) & Hone).
  exists objects, w''. split; [exact Hrun|]. split; [exact Hports|].
  apply Hone. discriminate.
Defined.

(* ------------------------------------------------------------------ *)
(** ** The groups of a secret *)







Lemma draw_advance (n i : nat) (w : World) : draw (advance n w) i = draw w (i + n).
Proof.
  unfold draw, advance. cbn [entropy drawn]. rewrite Nat.add_assoc. reflexivity.
Qed.

Lemma makeBuildConfig_secret_values (config : IBuilderAppConfig) (w : World) :
  exists bc : JsVal,
    makeBuildConfig config w = (Normal bc, advance 8 w)
    /\ genericSecretOf bc = JStr (secretOf w)
    /\ githubSecretOf bc = JStr (secretOf (advance 4 w)).
Proof.
  unfold makeBuildConfig, bind. rewrite !generateSecret_run. cbv beta iota zeta.
  generalize (secretOf w) (secretOf (advance 4 w)). intros g h.
  destruct (truthy (jsOpt (contextDir config))); eexists;
    (split; [reflexivity|]); split; reflexivity.
Qed.

(** X11. The Generic secret is a function of the first four random values
    drawn and the GitHub secret of the next four: two constructions that
    see the same four values get the same secret, whatever the other
    values are, and when the second four values repeat the first four the
    two secrets of one build config are equal. *)
Theorem makeBuildConfig_secret_draws :
  forall (config : IBuilderAppConfig) (w1 w2 : World),
  exists bc1 bc2 : JsVal,
    makeBuildConfig config w1 = (Normal bc1, advance 8 w1)
    /\ makeBuildConfig config w2 = (Normal bc2, advance 8 w2)
    /\ ((forall i, (i < 4)%nat -> draw w1 i = draw w2 i) ->
        genericSecretOf bc1 = genericSecretOf bc2)
    /\ ((forall i, (4 <= i < 8)%nat -> draw w1 i = draw w2 i) ->
        githubSecretOf bc1 = githubSecretOf bc2)
    /\ ((forall i, (i < 4)%nat -> draw w1 (i + 4) = draw w1 i) ->
        githubSecretOf bc1 = genericSecretOf bc1).
Proof.
  intros config w1 w2.
  destruct (makeBuildConfig_secret_values config w1) as (bc1 & R1 & G1 & H1).
  destruct (makeBuildConfig_secret_values config w2) as (bc2 & R2 & G2 & H2).
  exists bc1, bc2. split; [exact R1|]. split; [exact R2|].
  rewrite G1, G2, H1, H2. unfold secretOf. rewrite !draw_advance.
  cbn [Nat.add]. split; [|split].
  - intros E. rewrite !E by lia. reflexivity.
  - intros E. rewrite !E by lia. reflexivity.
  - intros E.
    pose proof (E 0%nat ltac:(lia)) as E0. pose proof (E 1%nat ltac:(lia)) as E1.
    pose proof (E 2%nat ltac:(lia)) as E2. pose proof (E 3%nat ltac:(lia)) as E3.
    cbn [Nat.add] in E0, E1, E2, E3. rewrite E0, E1, E2, E3. reflexivity.
Qed.

Lemma makeBuildConfig_secret_draws_witness :
  exists bc : JsVal,
    makeBuildConfig (myapp []) quietWorld = (Normal bc, advance 8 quietWorld)
    /\ githubSecretOf bc = genericSecretOf bc.
Proof.
  destruct (makeBuildConfig_secret_draws (myapp []) quietWorld quietWorld)
    as (bc1 & bc2 & R1 & _ & _ & _ & Hrepeat).
  exists bc1. split; [exact R1|]. apply Hrepeat. intros i Hi. reflexivity.
Defined.

(* ------------------------------------------------------------------ *)
(** ** Port names and key shapes *)

Lemma getPortName_expand (n : Z) (proto : string) :
  getPortName (mkPort n proto)
  = (numberToString n ++ String "-" (toLowerCase proto))%string.
Proof.
  unfold getPortName. cbn [containerPort protocol].
  unfold toLowerCase. rewrite mapString_append.
  fold (toLowerCase (numberToString n)). rewrite toLowerCase_numberToString.
  reflexivity.
Qed.

Lemma string_append_cancel_l (a x y : string) :
  (a ++ x = a ++ y)%string -> x = y.
Proof.
  induction a as [|c a IH]; cbn [append]; intros H; [exact H|].
  injection H as H. exact (IH H).
Qed.

Lemma upperChar_lowerChar (c : ascii) : upperChar (lowerChar c) = upperChar c.
Proof. ascii_cases c; reflexivity. Qed.

Lemma toUpperCase_toLowerCase (s : string) :
  toUpperCase (toLowerCase s) = toUpperCase s.
Proof.
  unfold toUpperCase, toLowerCase. induction s as [|c s IH]; [reflexivity|].
  cbn [mapString]. rewrite upperChar_lowerChar, IH. reflexivity.
Qed.

(** X13. Two ports with the same port name are the same port, when their
    protocols are ASCII and in upper case and their container ports are
    at most [MAX_SAFE_INTEGER] in absolute value: on such ports
    [getPortName] is one-to-one. *)
Theorem getPortName_injective :
  forall p q : Port,
    isAscii (protocol p) = true ->
    isAscii (protocol q) = true ->
    toUpperCase (protocol p) = protocol p ->
    toUpperCase (protocol q) = protocol q ->
    Z.abs (containerPort p) <= MAX_SAFE_INTEGER ->
    Z.abs (containerPort q) <= MAX_SAFE_INTEGER ->
    getPortName p = getPortName q ->
    p = q.
Proof.
  intros [n a] [m b] _ _ Ha Hb Bn Bm H. cbn [protocol containerPort] in *.
  assert (Hn : Int n = Int m).
  { rewrite <- (parseInt10_numberToString n (String "-" (toLowerCase a)) Bn eq_refl).
    rewrite <- (parseInt10_numberToString m (String "-" (toLowerCase b)) Bm eq_refl).
    rewrite <- !getPortName_expand, H. reflexivity. }
  injection Hn as <-.
  rewrite !getPortName_expand in H. apply string_append_cancel_l in H.
  injection H as H. apply (f_equal toUpperCase) in H.
  rewrite !toUpperCase_toLowerCase, Ha, Hb in H. subst b. reflexivity.
Qed.

Lemma getPortName_injective_witness :
  mkPort 8080 "TCP" = mkPort 8080 (toUpperCase "tcp").
Proof.
  apply (getPortName_injective (mkPort 8080 "TCP") (mkPort 8080 (toUpperCase "tcp")));
    try reflexivity; vm_compute; discriminate.
Defined.

(** X14. The values of the exposed-ports mapping play no part: two objects
    with the same keys in the same order, neither of them array-like, are
    parsed alike. *)
Theorem parsePortsFromSpec_keys_only :
  forall (fields1 fields2 : list (string * JsVal)) (w : World),
    map fst fields1 = map fst fields2 ->
    Lodash.arrayLikeLength (JObj fields1) = None ->
    Lodash.arrayLikeLength (JObj fields2) = None ->
    parsePortsFromSpec (JObj fields1) w = parsePortsFromSpec (JObj fields2) w.
Proof.
  intros fields1 fields2 w Hkeys H1 H2. unfold parsePortsFromSpec.
  rewrite (parsePortsFromSpec_values_unused ThisUndefined fields1 w H1).
  rewrite (parsePortsFromSpec_values_unused ThisUndefined fields2 w H2).
  rewrite Hkeys. reflexivity.
Qed.

Lemma parsePortsFromSpec_keys_only_witness :
  parsePortsFromSpec (JObj [("8080/tcp", JObj []); ("53/udp", JNull)]) quietWorld
  = parsePortsFromSpec
      (JObj [("8080/tcp", JStr "web"); ("53/udp", JObj [("length", JNum 2)])])
      quietWorld.
Proof.
  apply (parsePortsFromSpec_keys_only
           [("8080/tcp", JObj []); ("53/udp", JNull)]
           [("8080/tcp", JStr "web"); ("53/udp", JObj [("length", JNum 2)])]
           quietWorld); reflexivity.
Defined.

Lemma firstSegment_numberToString (n : Z) (tail : string) :
  firstSegment (numberToString n ++ String "/" tail) = numberToString n.
Proof.
  unfold firstSegment.
  rewrite (split_at_sep "/"%char _ tail (numberToString_without_slash n)).
  reflexivity.
Qed.

Lemma parseInt10_numberToString_exact (n : Z) :
  Z.abs n <= MAX_SAFE_INTEGER -> parseInt10 (numberToString n) = Int n.
Proof.
  intros Hb. rewrite <- (string_append_nil_r (numberToString n)).
  apply parseInt10_numberToString; [exact Hb | reflexivity].
Qed.

(** X15. Only the first two segments of a key count: what follows a second
    [/] is ignored, and a key that ends in [/] is accepted with the empty
    protocol, which gives a port name ending in [-]. Stated for keys that
    begin with the decimal text of an integer of at most
    [MAX_SAFE_INTEGER] in absolute value. *)
Theorem parsePortsFromSpec_extra_segments :
  forall (n : Z) (proto rest : string) (w : World),
    Z.abs n <= MAX_SAFE_INTEGER ->
    containsChar "/"%char proto = false ->
    parsePortsFromSpec
      (exposedPorts [(numberToString n ++ "/" ++ proto ++ "/" ++ rest)%string]) w
    = (Normal [mkPort n (toUpperCase proto)], w)
    /\ parsePortsFromSpec (exposedPorts [(numberToString n ++ "/")%string]) w
       = (Normal [mkPort n EmptyString], w)
    /\ getPortName (mkPort n EmptyString) = (numberToString n ++ "-")%string.
Proof.
  intros n proto rest w Hb Hproto. split; [|split].
  - rewrite parsePortsFromSpec_single. unfold portOfKey.
    change (numberToString n ++ "/" ++ proto ++ "/" ++ rest)%string
      with (numberToString n ++ String "/" (proto ++ String "/" rest))%string.
    rewrite firstSegment_numberToString, (parseInt10_numberToString_exact n Hb).
    unfold protocolSegment.
    rewrite (split_at_sep "/"%char _ _ (numberToString_without_slash n)).
    rewrite (split_at_sep "/"%char proto rest Hproto). reflexivity.
  - rewrite parsePortsFromSpec_single. unfold portOfKey.
    change (numberToString n ++ "/")%string
      with (numberToString n ++ String "/" "")%string.
    rewrite firstSegment_numberToString, (parseInt10_numberToString_exact n Hb).
    unfold protocolSegment.
    rewrite (split_at_sep "/"%char _ _ (numberToString_without_slash n)).
    reflexivity.
  - apply getPortName_expand.
Qed.

Lemma parsePortsFromSpec_extra_segments_witness :
  parsePortsFromSpec (exposedPorts ["8080/tcp/ignored/too"]) quietWorld
  = (Normal [mkPort 8080 "TCP"], quietWorld)
  /\ parsePortsFromSpec (exposedPorts ["8080/"]) quietWorld
     = (Normal [mkPort 8080 EmptyString], quietWorld).
Proof.
  split.
  - apply (parsePortsFromSpec_extra_segments 8080 "tcp" "ignored/too" quietWorld).
    + vm_compute. discriminate.
    + reflexivity.
  - apply (parsePortsFromSpec_extra_segments 8080 "tcp" "" quietWorld).
    + vm_compute. discriminate.
    + reflexivity.
Defined.
